(** * ColabFold batch utility [migrate_done_to_cache.py]

    A shallow embedding of [batch/migrate_done_to_cache.py] and the proofs of
    its specification.

    Conventions of the embedding.
    - A Python [str] is a [string]: the UTF-8 encoding of its code points.
      The two separators ['/'] and ['\'] are ASCII, so replacing and searching
      them byte by byte is what Python does code point by code point, and the
      byte-wise lexicographic order is the code-point order [sorted] uses.
    - A Python [dict] is an association list in insertion order whose keys are
      pairwise distinct ([dict_wf]).
    - [os.path] is [posixpath] (the script's documented use is on Linux paths
      such as [/content/drive/MyDrive/af2_output]).
    - Exceptions, [sys.exit], the console and the file system are explicit: a
      computation is a function of the world that returns [Return a],
      [Raise e] (an [Exception] propagates) or [Exit code] ([SystemExit]),
      with the world after it.
    - The world holds what the script can observe: what each path holds as
      a directory and as a file, what a write to each path will do, the
      lines printed so far, and the calls of the script's own functions.
      [print] does not fail.
    - [json.loads], a library function, is a parameter of the script; the
      text [json.dump] writes is computed ([JsonDump]). *)

From Stdlib Require Import String Ascii List ZArith Lia Bool Arith.
From Stdlib Require Import Permutation Sorted OrderedTypeEx.
From Stdlib Require Import DecimalString.
Import ListNotations.
Local Open Scope string_scope.
Local Open Scope list_scope.

(** ** Python strings *)

Module PyStr.

(** [s.replace(old, new)] for one-character [old] and [new]. *)
Fixpoint replace (old new : ascii) (s : string) : string :=
  match s with
  | EmptyString => EmptyString
  | String a r =>
      String (if Ascii.eqb a old then new else a) (replace old new r)
  end.

(** [s.rfind(c)] for a one-character [c]: the highest index of [c] in [s],
    or [-1]. *)
Fixpoint rfind (c : ascii) (s : string) : Z :=
  match s with
  | EmptyString => (-1)%Z
  | String a r =>
      let i := rfind c r in
      if (0 <=? i)%Z then (i + 1)%Z
      else if Ascii.eqb a c then 0%Z else (-1)%Z
  end.

(** The slice [s[i:]] for [0 <= i]. *)
Fixpoint slice_from (i : nat) (s : string) : string :=
  match i, s with
  | O, _ => s
  | S _, EmptyString => EmptyString
  | S j, String _ r => slice_from j r
  end.

(** [c in s] for a one-character [c]. *)
Fixpoint contains (c : ascii) (s : string) : bool :=
  match s with
  | EmptyString => false
  | String a r => Ascii.eqb a c || contains c r
  end.

(** [s.endswith(c)] for a one-character [c]. *)
Fixpoint endswith (c : ascii) (s : string) : bool :=
  match s with
  | EmptyString => false
  | String a EmptyString => Ascii.eqb a c
  | String _ r => endswith c r
  end.

(** [s.startswith(c)] for a one-character [c]. *)
Definition startswith (c : ascii) (s : string) : bool :=
  match s with
  | EmptyString => false
  | String a _ => Ascii.eqb a c
  end.

End PyStr.

Definition slash : ascii := "/"%char.
Definition backslash : ascii := "\"%char.

(** A string holds a path separator when it holds ['/'] or ['\']. *)
Definition has_separator (s : string) : bool :=
  PyStr.contains slash s || PyStr.contains backslash s.

(** [posixpath.basename]: [i = p.rfind('/') + 1; return p[i:]]. *)
Definition basename (p : string) : string :=
  let i := (PyStr.rfind slash p + 1)%Z in
  PyStr.slice_from (Z.to_nat i) p.

(** The key canonicalisation of [load_completion_cache], line 44:
    [os.path.basename(key.replace('\\', '/'))]. *)
Definition normalize_key (key : string) : string :=
  basename (PyStr.replace backslash slash key).

(** ** Python dictionaries, in insertion order *)

Section PyDict.
Context {V : Type}.

Definition pydict : Type := list (string * V).

Definition dict_keys (d : pydict) : list string := map fst d.
Definition dict_items (d : pydict) : list (string * V) := d.
Definition dict_copy (d : pydict) : pydict := d.
Definition dict_len (d : pydict) : nat := List.length d.

(** Truth value of a dictionary: non-empty. *)
Definition dict_truthy (d : pydict) : bool :=
  match d with [] => false | _ :: _ => true end.

Definition dict_wf (d : pydict) : Prop := NoDup (dict_keys d).

(** [d.get(k)] *)
Fixpoint dict_get (k : string) (d : pydict) : option V :=
  match d with
  | [] => None
  | (k', v) :: r => if String.eqb k' k then Some v else dict_get k r
  end.

(** [k in d] *)
Definition dict_contains (k : string) (d : pydict) : bool :=
  match dict_get k d with Some _ => true | None => false end.

(** [d[k] = v]: an existing key keeps its position and gets the new value,
    a new key is appended. *)
Fixpoint dict_set (k : string) (v : V) (d : pydict) : pydict :=
  match d with
  | [] => [(k, v)]
  | (k', v') :: r =>
      if String.eqb k' k then (k', v) :: r else (k', v') :: dict_set k v r
  end.

(** *** [load_completion_cache], lines 41-47: the normalisation loop. *)
Definition normalize_step (normalized_cache : pydict) (item : string * V)
  : pydict :=
  let '(key, value) := item in
  let basename := normalize_key key in
  dict_set basename value normalized_cache.

Definition normalize_cache (raw_cache : pydict) : pydict :=
  fold_left normalize_step (dict_items raw_cache) [].

(** *** [merge_caches], lines 108-125. *)
Definition merge_step (st : pydict * nat * nat) (item : string * V)
  : pydict * nat * nat :=
  let '(merged, added, already_exists) := st in
  let '(jobname, status) := item in
  if dict_contains jobname merged
  then (merged, added, already_exists + 1)
  else (dict_set jobname status merged, added + 1, already_exists).

Definition merge_caches (existing_cache new_entries : pydict)
  : pydict * nat * nat :=
  let merged := dict_copy existing_cache in
  fold_left merge_step (dict_items new_entries) (merged, 0, 0).

End PyDict.

Arguments pydict V : clear implicits.


(** ** JSON values

    What [json.load] returns and [json.dump] accepts.  A [float] is kept as
    the text [float.__repr__] prints for it; object members are in the order
    of the Python [dict]. *)

#[warnings="-register-all"]
Inductive json : Type :=
| JNull
| JBool (b : bool)
| JInt (n : Z)
| JFloat (repr : string)
| JStr (s : string)
| JArr (elems : list json)
| JObj (members : list (string * json)).

(** [True], the completion flag [find_completed_jobs] stores. *)
Definition py_True : json := JBool true.

(** [type(v).__name__] *)
Definition type_name (v : json) : string :=
  match v with
  | JNull => "NoneType"
  | JBool _ => "bool"
  | JInt _ => "int"
  | JFloat _ => "float"
  | JStr _ => "str"
  | JArr _ => "list"
  | JObj _ => "dict"
  end.

(** ** [json.dump(obj, f, indent=2, sort_keys=True)] *)

Module JsonDump.

Definition quote : ascii := "034"%char.
Definition newline : ascii := "010"%char.

Definition str1 (a : ascii) : string := String a EmptyString.

(** One lowercase hexadecimal digit. *)
Definition hex_digit (n : N) : ascii :=
  match String.get (N.to_nat (N.modulo n 16)) "0123456789abcdef" with
  | Some a => a
  | None => "0"%char
  end.

(** ['{0:04x}'.format(n)] for [n < 0x10000]. *)
Definition hex4 (n : N) : string :=
  String (hex_digit (N.shiftr n 12))
    (String (hex_digit (N.shiftr n 8))
       (String (hex_digit (N.shiftr n 4))
          (String (hex_digit n) EmptyString))).

Definition continuation (a : ascii) : N := N.land (N_of_ascii a) 63.

(** The code points of a string, from its UTF-8 bytes.  A truncated sequence
    is not the encoding of any Python string; its lead byte is returned as
    it is. *)
Fixpoint code_points (s : string) : list N :=
  match s with
  | EmptyString => []
  | String a r =>
      let b := N_of_ascii a in
      if (b <? 128)%N then b :: code_points r
      else if (b <? 224)%N then
        match r with
        | String a1 r1 =>
            N.lor (N.shiftl (N.land b 31) 6) (continuation a1)
              :: code_points r1
        | _ => [b]
        end
      else if (b <? 240)%N then
        match r with
        | String a1 (String a2 r2) =>
            N.lor (N.shiftl (N.land b 15) 12)
              (N.lor (N.shiftl (continuation a1) 6) (continuation a2))
              :: code_points r2
        | _ => [b]
        end
      else
        match r with
        | String a1 (String a2 (String a3 r3)) =>
            N.lor (N.shiftl (N.land b 7) 18)
              (N.lor (N.shiftl (continuation a1) 12)
                 (N.lor (N.shiftl (continuation a2) 6) (continuation a3)))
              :: code_points r3
        | _ => [b]
        end
  end.

(** [replace(match)] of [py_encode_basestring_ascii]: the escape of one code
    point matched by [ESCAPE_ASCII], and the code point itself otherwise. *)
Definition escape (n : N) : string :=
  if (n =? 92)%N then "\\"
  else if (n =? 34)%N then String "\"%char (str1 quote)
  else if (n =? 8)%N then "\b"
  else if (n =? 12)%N then "\f"
  else if (n =? 10)%N then "\n"
  else if (n =? 13)%N then "\r"
  else if (n =? 9)%N then "\t"
  else if ((32 <=? n) && (n <=? 126))%N then str1 (ascii_of_N n)
  else if (n <? 65536)%N then "\u" ++ hex4 n
  else
    let m := (n - 65536)%N in
    let s1 := N.lor 55296 (N.land (N.shiftr m 10) 1023) in
    let s2 := N.lor 56320 (N.land m 1023) in
    "\u" ++ hex4 s1 ++ "\u" ++ hex4 s2.

(** [py_encode_basestring_ascii] ([ensure_ascii] is left at [True]). *)
Definition encode_basestring_ascii (s : string) : string :=
  str1 quote ++ String.concat EmptyString (map escape (code_points s))
    ++ str1 quote.

(** [int.__repr__] *)
Definition int_repr (n : Z) : string := NilZero.string_of_int (Z.to_int n).

(** [_indent * level], with [indent=2]. *)
Fixpoint indentation (level : nat) : string :=
  match level with
  | O => EmptyString
  | S l => "  " ++ indentation l
  end.

Definition newline_indent (level : nat) : string :=
  str1 newline ++ indentation level.

(** With an indent the item separator is [','] followed by the new line. *)
Definition item_separator (level : nat) : string :=
  "," ++ newline_indent level.

Definition key_separator : string := ": ".

(** [sorted(dct.items())].  Items are compared as tuples, key first; the keys
    of a dictionary are pairwise distinct, so the comparison is decided on
    the keys.  The sort is stable, as Python's is. *)
Fixpoint insert_item {A : Type} (x : string * A) (l : list (string * A))
  : list (string * A) :=
  match l with
  | [] => [x]
  | y :: r =>
      if String.leb (fst x) (fst y) then x :: l else y :: insert_item x r
  end.

Definition sorted_items {A : Type} (l : list (string * A))
  : list (string * A) :=
  fold_right insert_item [] l.

Definition member_text (kv : string * string) : string :=
  encode_basestring_ascii (fst kv) ++ key_separator ++ snd kv.

(** The text of a non-empty container: the opening bracket, its items one per
    line in the order given, the closing bracket. *)
Definition layout (opening closing : string) (level : nat)
  (items : list string) : string :=
  opening ++ newline_indent (S level)
    ++ String.concat (item_separator (S level)) items
    ++ newline_indent level ++ closing.

(** [_iterencode], all chunks joined.  The members of an object are encoded
    and then sorted: the order is decided on the keys alone, so this writes
    what sorting first and encoding in that order writes. *)
Fixpoint iterencode (level : nat) (o : json) : string :=
  match o with
  | JNull => "null"
  | JBool true => "true"
  | JBool false => "false"
  | JInt n => int_repr n
  | JFloat repr => repr
  | JStr s => encode_basestring_ascii s
  | JArr [] => "[]"
  | JArr elems => layout "[" "]" level (map (iterencode (S level)) elems)
  | JObj [] => "{}"
  | JObj members =>
      layout "{" "}" level
        (map member_text
           (sorted_items
              (map (fun kv => (fst kv, iterencode (S level) (snd kv)))
                 members)))
  end.

Definition dumps (o : json) : string := iterencode 0 o.

(** The text of an object whose members are written in the order given, as
    [_iterencode_dict] writes them when it does not sort. *)
Definition object_text (level : nat) (items : list (string * json))
  : string :=
  match items with
  | [] => "{}"
  | _ =>
      layout "{" "}" level
        (map (fun kv => member_text (fst kv, iterencode (S level) (snd kv)))
           items)
  end.

End JsonDump.


(** ** The world of the script: file system, console, exits *)

(** One entry of [os.scandir(output_dir)], with what
    [glob.glob(os.path.join(entry.path, '*.done.txt'))] returns for it. *)
Record dir_entry : Type := {
  entry_name : string;
  entry_is_dir : bool;
  entry_done_files : list string
}.

Inductive dir_state : Type :=
| DirMissing
| DirUnlistable (e : string)
| DirEntries (entries : list dir_entry).

Inductive file_state : Type :=
| FileMissing
| FileUnreadable (e : string)
| FileText (text : string).

(** What writing a file will do: succeed, fail in [open], or fail after
    [written] bytes. *)
Inductive write_fault : Type :=
| NoFault
| OpenRaises (e : string)
| WriteRaises (written : nat) (e : string).

(** Calls of the script's effectful functions, recorded as they start. *)
Inductive call : Type :=
| CallLoad (output_dir : string)
| CallSave (output_dir : string) (cache : pydict json)
| CallFind (output_dir : string).

Record world : Type := {
  dirs : string -> dir_state;
  files : string -> file_state;
  faults : string -> write_fault;
  stdout : list string;
  calls : list call
}.

Inductive outcome (A : Type) : Type :=
| Return (a : A)
| Raise (e : string)
| Exit (code : Z).

Arguments Return {A} a.
Arguments Raise {A} e.
Arguments Exit {A} code.

Definition prog (A : Type) : Type := world -> outcome A * world.

Definition ret {A : Type} (a : A) : prog A := fun w => (Return a, w).

Definition bind {A B : Type} (c : prog A) (k : A -> prog B) : prog B :=
  fun w =>
    match c w with
    | (Return a, w') => k a w'
    | (Raise e, w') => (Raise e, w')
    | (Exit code, w') => (Exit code, w')
    end.

Declare Scope prog_scope.
Delimit Scope prog_scope with prog.
Bind Scope prog_scope with prog.

Notation "x <- c ;; k" := (bind c (fun x => k))
  (at level 61, c at next level, right associativity) : prog_scope.
Notation "' pat <- c ;; k" := (bind c (fun x => let 'pat := x in k))
  (at level 61, pat pattern, c at next level, right associativity)
  : prog_scope.
Notation "c ;; k" := (bind c (fun _ => k))
  (at level 61, right associativity) : prog_scope.

Local Open Scope prog_scope.

(** [raise] of an [Exception] and [sys.exit(code)]. *)
Definition raise {A : Type} (e : string) : prog A := fun w => (Raise e, w).
Definition sys_exit {A : Type} (code : Z) : prog A :=
  fun w => (Exit code, w).

(** [try: body / except Exception as e: handler(e)].  [SystemExit] is not an
    [Exception] and passes through. *)
Definition try_except {A : Type} (body : prog A) (handler : string -> prog A)
  : prog A :=
  fun w =>
    match body w with
    | (Raise e, w') => handler e w'
    | r => r
    end.

(** [for x in xs: acc = body(acc, x)] *)
Fixpoint for_each {A S : Type} (xs : list A) (acc : S)
  (body : S -> A -> prog S) : prog S :=
  match xs with
  | [] => ret acc
  | x :: r => acc' <- body acc x ;; for_each r acc' body
  end.

Definition print (line : string) : prog unit :=
  fun w =>
    (Return tt,
     {| dirs := dirs w; files := files w; faults := faults w;
        stdout := stdout w ++ [line]; calls := calls w |}).

Definition record_call (c : call) : prog unit :=
  fun w =>
    (Return tt,
     {| dirs := dirs w; files := files w; faults := faults w;
        stdout := stdout w; calls := calls w ++ [c] |}).

Definition path_exists (w : world) (p : string) : bool :=
  match dirs w p, files w p with
  | DirMissing, FileMissing => false
  | _, _ => true
  end.

(** [os.path.exists(p)] *)
Definition os_path_exists (p : string) : prog bool :=
  fun w => (Return (path_exists w p), w).

(** [os.scandir(p)], iterated to its end. *)
Definition os_scandir (p : string) : prog (list dir_entry) :=
  fun w =>
    match dirs w p with
    | DirEntries entries => (Return entries, w)
    | DirUnlistable e => (Raise e, w)
    | DirMissing =>
        (Raise ("[Errno 2] No such file or directory: '" ++ p ++ "'"), w)
    end.

(** [with open(p, 'r') as f: f.read()] *)
Definition read_text (p : string) : prog string :=
  fun w =>
    match files w p with
    | FileText text => (Return text, w)
    | FileUnreadable e => (Raise e, w)
    | FileMissing =>
        (Raise ("[Errno 2] No such file or directory: '" ++ p ++ "'"), w)
    end.

Definition set_file (w : world) (p : string) (f : file_state) : world :=
  {| dirs := dirs w;
     files := fun q => if String.eqb q p then f else files w q;
     faults := faults w; stdout := stdout w; calls := calls w |}.

(** [with open(p, 'w') as f: f.write(text)].  Opening truncates the file, so
    a failure while writing leaves the bytes written so far. *)
Definition write_text (p : string) (text : string) : prog unit :=
  fun w =>
    match faults w p with
    | NoFault => (Return tt, set_file w p (FileText text))
    | OpenRaises e => (Raise e, w)
    | WriteRaises written e =>
        (Raise e, set_file w p (FileText (String.substring 0 written text)))
    end.

(** [posixpath.join(a, b)] *)
Definition path_join (a b : string) : string :=
  if PyStr.startswith slash b then b
  else if (String.eqb a EmptyString || PyStr.endswith slash a)%bool
       then a ++ b
       else a ++ "/" ++ b.

(** [str(n)] for a length or a counter. *)
Definition nat_repr (n : nat) : string :=
  NilZero.string_of_uint (Nat.to_uint n).

(** [s * n] *)
Fixpoint str_repeat (s : string) (n : nat) : string :=
  match n with
  | O => EmptyString
  | S m => s ++ str_repeat s m
  end.

Definition nl : string := JsonDump.str1 JsonDump.newline.


(** ** The script *)

Section Script.

(** [json.loads]: the decoded value, or the message of the exception. *)
Variable json_loads : string -> string + json.

(** [with open(p, 'r') as f: json.load(f)] *)
Definition json_load_file (p : string) : prog json :=
  text <- read_text p ;;
  match json_loads text with
  | inr v => ret v
  | inl e => raise e
  end.

(** [raw_cache.items()]: only a [dict] has the attribute. *)
Definition py_items (v : json) : prog (list (string * json)) :=
  match v with
  | JObj members => ret members
  | _ =>
      raise ("'" ++ type_name v ++ "' object has no attribute 'items'")
  end.

Definition cache_file_name : string := ".completion_cache.json".

(** Lines 32-51. *)
Definition load_completion_cache (output_dir : string)
  : prog (pydict json) :=
  record_call (CallLoad output_dir) ;;
  let cache_file := path_join output_dir cache_file_name in
  present <- os_path_exists cache_file ;;
  if (present : bool) then
    try_except
      (raw_cache <- json_load_file cache_file ;;
       items <- py_items raw_cache ;;
       ret (normalize_cache items))
      (fun e =>
         print ("Warning: Could not load existing cache: " ++ e) ;;
         ret [])
  else ret [].

(** Lines 54-63. *)
Definition save_completion_cache (output_dir : string) (cache : pydict json)
  : prog unit :=
  record_call (CallSave output_dir cache) ;;
  let cache_file := path_join output_dir cache_file_name in
  try_except
    (write_text cache_file (JsonDump.dumps (JObj cache)) ;;
     print (nl ++ "✓ Cache saved to: " ++ cache_file))
    (fun e =>
       print ("✗ Error saving cache: " ++ e) ;;
       sys_exit 1).

(** [entry.is_dir() and not entry.name.startswith('.')] *)
Definition is_job_dir (entry : dir_entry) : bool :=
  entry_is_dir entry && negb (PyStr.startswith "."%char (entry_name entry)).

(** The body of the loop of lines 90-102. *)
Definition find_step (st : pydict json * nat) (entry : dir_entry)
  : prog (pydict json * nat) :=
  let '(completed_jobs, found_count) := st in
  let jobname := entry_name entry in
  let done_files := entry_done_files entry in
  match done_files with
  | first :: _ =>
      let done_file_name := basename first in
      print ("  ✓ Found: " ++ jobname ++ " (has " ++ done_file_name ++ ")") ;;
      ret (dict_set jobname py_True completed_jobs, found_count + 1)
  | [] => ret (completed_jobs, found_count)
  end.

(** Lines 66-105. *)
Definition find_completed_jobs (output_dir : string) : prog (pydict json) :=
  record_call (CallFind output_dir) ;;
  present <- os_path_exists output_dir ;;
  if negb present then
    print ("✗ Error: Output directory does not exist: " ++ output_dir) ;;
    sys_exit 1
  else
    subdirs <-
      try_except
        (entries <- os_scandir output_dir ;;
         ret (filter is_job_dir entries))
        (fun e =>
           print ("✗ Error scanning output directory: " ++ e) ;;
           sys_exit 1) ;;
    print ("Scanning " ++ nat_repr (List.length subdirs)
             ++ " job directories for .done.txt files..." ++ nl) ;;
    '(completed_jobs, found_count) <- for_each subdirs ([], 0) find_step ;;
    print (nl ++ "✓ Found " ++ nat_repr found_count
             ++ " completed jobs with .done.txt files") ;;
    ret completed_jobs.

Definition rule : string := str_repeat "=" 70.

(** Lines 128-185, [argv] being [sys.argv]. *)
Definition main (argv : list string) : prog unit :=
  if negb (Nat.eqb (List.length argv) 2) then
    print "Usage: python migrate_done_to_cache.py <output_dir>" ;;
    print (nl ++ "Example:") ;;
    print "  python migrate_done_to_cache.py /content/drive/MyDrive/af2_output" ;;
    sys_exit 1
  else
    let output_dir := nth 1 argv EmptyString in
    print rule ;;
    print "Migrate done.txt completion status to .completion_cache.json" ;;
    print rule ;;
    print ("Output directory: " ++ output_dir ++ nl) ;;
    print "Loading and cleaning existing completion cache..." ;;
    existing_cache <- load_completion_cache output_dir ;;
    print ("✓ Loaded and normalized " ++ nat_repr (dict_len existing_cache)
             ++ " existing entries") ;;
    print ("  (All full paths converted to basenames only)" ++ nl) ;;
    print rule ;;
    completed_jobs <- find_completed_jobs output_dir ;;
    if negb (dict_truthy completed_jobs) then
      print (nl ++ "No new completed jobs found.") ;;
      if dict_truthy existing_cache then
        print "Saving cleaned cache (full paths removed)..." ;;
        save_completion_cache output_dir existing_cache ;;
        print (nl ++ "✓ Cache cleanup complete!")
      else
        print "Nothing to update."
    else
      print (nl ++ rule) ;;
      print "Merging with existing cache..." ;;
      let '(merged_cache, added, already_exists) :=
        merge_caches existing_cache completed_jobs in
      print ("  - New entries added: " ++ nat_repr added) ;;
      print ("  - Already in cache: " ++ nat_repr already_exists) ;;
      print ("  - Total entries in cache: " ++ nat_repr (dict_len merged_cache)) ;;
      print (nl ++ rule) ;;
      print "Saving updated cache..." ;;
      save_completion_cache output_dir merged_cache ;;
      print (nl ++ rule) ;;
      print "✓ Migration complete!" ;;
      print rule ;;
      print (nl ++ "Summary:") ;;
      print ("  - Jobs scanned: " ++ nat_repr (dict_len completed_jobs)) ;;
      print ("  - New jobs added to cache: " ++ nat_repr added) ;;
      print ("  - Total jobs in cache: " ++ nat_repr (dict_len merged_cache)) ;;
      print (nl ++ "All entries are now stored as basenames (no path prefixes).") ;;
      print "You can now safely use the notebook with cache-only completion tracking.".

(** The process: [main()] under [if __name__ == "__main__"], with the exit
    status the interpreter ends with (1 for an uncaught exception). *)
Definition run (argv : list string) (w : world) : Z * world :=
  match main argv w with
  | (Return _, w') => (0%Z, w')
  | (Raise _, w') => (1%Z, w')
  | (Exit code, w') => (code, w')
  end.

End Script.


(** ** Observations the statements use *)

(** The world after more lines were printed and more calls recorded. *)
Definition logged (w : world) (lines : list string) (cs : list call)
  : world :=
  {| dirs := dirs w; files := files w; faults := faults w;
     stdout := stdout w ++ lines; calls := calls w ++ cs |}.

(** The invocations of [save_completion_cache] in a call log. *)
Fixpoint save_calls (cs : list call) : list (string * pydict json) :=
  match cs with
  | [] => []
  | CallSave output_dir cache :: r => (output_dir, cache) :: save_calls r
  | _ :: r => save_calls r
  end.

(** The cache [load_completion_cache] returns in a world. *)
Definition loaded_cache (json_loads : string -> string + json)
  (output_dir : string) (w : world) : pydict json :=
  match load_completion_cache json_loads output_dir w with
  | (Return cache, _) => cache
  | _ => []
  end.

(** The dictionary the loop of [find_completed_jobs] builds from a
    directory listing, without the printing. *)
Definition completed_step (completed_jobs : pydict json) (entry : dir_entry)
  : pydict json :=
  match entry_done_files entry with
  | _ :: _ => dict_set (entry_name entry) py_True completed_jobs
  | [] => completed_jobs
  end.

Definition completed_jobs_of (entries : list dir_entry) : pydict json :=
  fold_left completed_step (filter is_job_dir entries) [].

(** The path of the cache file under [output_dir]. *)
Definition cache_path (output_dir : string) : string :=
  path_join output_dir cache_file_name.

(** The warning line of [load_completion_cache]. *)
Definition load_warning (e : string) : string :=
  "Warning: Could not load existing cache: " ++ e.

(** The two lines [save_completion_cache] can print. *)
Definition saved_line (cache_file : string) : string :=
  nl ++ "✓ Cache saved to: " ++ cache_file.

Definition save_error_line (e : string) : string :=
  "✗ Error saving cache: " ++ e.

(** A value is well formed when the keys of every object in it are pairwise
    distinct, as those of a Python [dict] are. *)
#[warnings="-register-all"]
Inductive json_wf : json -> Prop :=
| WfNull : json_wf JNull
| WfBool (b : bool) : json_wf (JBool b)
| WfInt (n : Z) : json_wf (JInt n)
| WfFloat (repr : string) : json_wf (JFloat repr)
| WfStr (s : string) : json_wf (JStr s)
| WfArr (elems : list json) :
    Forall json_wf elems -> json_wf (JArr elems)
| WfObj (members : list (string * json)) :
    dict_wf members ->
    Forall (fun kv => json_wf (snd kv)) members ->
    json_wf (JObj members).

(** Two values have the same content when they differ at most in the
    insertion order of their objects, at any depth. *)
#[warnings="-register-all"]
Inductive same_content : json -> json -> Prop :=
| SameNull : same_content JNull JNull
| SameBool (b : bool) : same_content (JBool b) (JBool b)
| SameInt (n : Z) : same_content (JInt n) (JInt n)
| SameFloat (repr : string) : same_content (JFloat repr) (JFloat repr)
| SameStr (s : string) : same_content (JStr s) (JStr s)
| SameArr (l1 l2 : list json) :
    Forall2 same_content l1 l2 -> same_content (JArr l1) (JArr l2)
| SameObj (d1 d1' d2 : list (string * json)) :
    Permutation d1 d1' ->
    Forall2 (fun x y => fst x = fst y /\ same_content (snd x) (snd y)) d1' d2 ->
    same_content (JObj d1) (JObj d2).

(** The key order of a sorted dictionary: strictly increasing. *)
Definition key_lt {A : Type} (x y : string * A) : Prop :=
  String_as_OT.lt (fst x) (fst y).

(** ** Sample inputs *)

(** A decoder that knows three documents: the cache of scenario B, an object
    whose keys are paths, and an array. *)
Definition sample_loads (text : string) : string + json :=
  if String.eqb text "scenario B" then
    inr (JObj [("/old/path/jobA", py_True)])
  else if String.eqb text "paths" then
    inr (JObj [("/old/path/jobA", py_True);
               ("x\y\jobA", JBool false);
               ("a/jobZ/", JInt 3)])
  else if String.eqb text "array" then inr (JArr [JInt 1])
  else inl "Expecting value: line 1 column 1 (char 0)".

(** A world with one output directory, [out]. *)
Definition sample_world (d : dir_state) (f : file_state) (wf : write_fault)
  : world :=
  {| dirs := fun p => if String.eqb p "out" then d else DirMissing;
     files := fun p =>
       if String.eqb p "out/.completion_cache.json" then f else FileMissing;
     faults := fun _ => wf;
     stdout := [];
     calls := [] |}.

Definition sample_entries : list dir_entry :=
  [ {| entry_name := "jobA"; entry_is_dir := true;
       entry_done_files := ["out/jobA/x.done.txt"] |};
    {| entry_name := "jobB"; entry_is_dir := true; entry_done_files := [] |};
    {| entry_name := ".completion_cache.json"; entry_is_dir := false;
       entry_done_files := [] |} ].


(** ** Further observations *)

(** An entry the scan records: a job directory with a marker file. *)
Definition has_done_files (entry : dir_entry) : bool :=
  match entry_done_files entry with
  | [] => false
  | _ :: _ => true
  end.

Definition is_completed_job (entry : dir_entry) : bool :=
  is_job_dir entry && has_done_files entry.

(** The entries of [D] whose key is not a key of [E]. *)
Definition new_entries {V : Type} (E D : pydict V) : list (string * V) :=
  filter (fun kv => negb (dict_contains (fst kv) E)) D.

(** A raw entry under its normalised key. *)
Definition rename_key {V : Type} (kv : string * V) : string * V :=
  (normalize_key (fst kv), snd kv).

(** The lines [main] prints for a wrong number of arguments. *)
Definition usage_lines : list string :=
  [ "Usage: python migrate_done_to_cache.py <output_dir>";
    (nl ++ "Example:")%string;
    "  python migrate_done_to_cache.py /content/drive/MyDrive/af2_output" ].

(** The two error lines of [find_completed_jobs]. *)
Definition missing_dir_line (output_dir : string) : string :=
  "✗ Error: Output directory does not exist: " ++ output_dir.

Definition scan_error_line (e : string) : string :=
  "✗ Error scanning output directory: " ++ e.

(** The message of the [AttributeError] of [raw_cache.items()]. *)
Definition items_error (v : json) : string :=
  "'" ++ type_name v ++ "' object has no attribute 'items'".

(** A decoder that reads back the dump of the cache of scenario A. *)
Definition roundtrip_loads (text : string) : string + json :=
  if String.eqb text (JsonDump.dumps (JObj [("jobA", py_True)])) then
    inr (JObj [("jobA", py_True)])
  else inl "Expecting value: line 1 column 1 (char 0)".

(** The listing of [sample_entries] in another order. *)
Definition sample_entries_reordered : list dir_entry :=
  [ {| entry_name := ".completion_cache.json"; entry_is_dir := false;
       entry_done_files := [] |};
    {| entry_name := "jobB"; entry_is_dir := true; entry_done_files := [] |};
    {| entry_name := "jobA"; entry_is_dir := true;
       entry_done_files := ["out/jobA/x.done.txt"] |} ].


(** * Properties *)

(** ** Strings and key normalisation *)

Lemma ascii_eqb_true (a c : ascii) : Ascii.eqb a c = true -> a = c.
Proof. apply Ascii.eqb_eq. Qed.

Lemma contains_replace (old new : ascii) (s : string) :
  Ascii.eqb new old = false ->
  PyStr.contains old (PyStr.replace old new s) = false.
Proof.
  intros Hne. induction s as [|a s IH]; simpl; [reflexivity|].
  rewrite IH, orb_false_r.
  destruct (Ascii.eqb a old) eqn:E; [exact Hne | exact E].
Qed.

Lemma replace_absent (old new : ascii) (s : string) :
  PyStr.contains old s = false -> PyStr.replace old new s = s.
Proof.
  induction s as [|a s IH]; simpl; [reflexivity|].
  intros H. apply orb_false_iff in H as [Ha Hs].
  now rewrite Ha, IH.
Qed.

Lemma contains_slice_from (c : ascii) (n : nat) (s : string) :
  PyStr.contains c s = false ->
  PyStr.contains c (PyStr.slice_from n s) = false.
Proof.
  revert s. induction n as [|n IH]; intros [|a s]; simpl; auto.
  intros H. apply orb_false_iff in H as [_ Hs]. now apply IH.
Qed.

Lemma rfind_lower (c : ascii) (s : string) : (-1 <= PyStr.rfind c s)%Z.
Proof.
  induction s as [|a s IH]; simpl; [lia|].
  destruct (0 <=? PyStr.rfind c s)%Z eqn:E; [apply Z.leb_le in E; lia|].
  destruct (Ascii.eqb a c); lia.
Qed.

(** [rfind] answers [-1] exactly when the character is absent. *)
Lemma rfind_absent (c : ascii) (s : string) :
  PyStr.contains c s = false <-> PyStr.rfind c s = (-1)%Z.
Proof.
  induction s as [|a s IH]; simpl; [tauto|].
  pose proof (rfind_lower c s) as Hl.
  destruct (0 <=? PyStr.rfind c s)%Z eqn:E.
  - apply Z.leb_le in E. split; intros H.
    + apply orb_false_iff in H as [_ H]. apply IH in H. lia.
    + lia.
  - apply Z.leb_gt in E. assert (Hr : PyStr.rfind c s = (-1)%Z) by lia.
    apply IH in Hr. rewrite Hr, orb_false_r.
    destruct (Ascii.eqb a c); split; intros; (discriminate || reflexivity).
Qed.

(** What [p[p.rfind(c) + 1:]] is: all of [p] when [c] is absent, and
    otherwise the text after the last [c]. *)
Lemma slice_after_rfind (c : ascii) (s : string) :
  let b := PyStr.slice_from (Z.to_nat (PyStr.rfind c s + 1)) s in
  PyStr.contains c b = false /\
  (PyStr.contains c s = false -> b = s) /\
  (PyStr.contains c s = true -> exists pre, s = (pre ++ String c b)%string).
Proof.
  induction s as [|a s IH]; simpl.
  - repeat split; auto. discriminate.
  - pose proof (rfind_lower c s) as Hl.
    destruct IH as (IHn & IHa & IHp).
    destruct (0 <=? PyStr.rfind c s)%Z eqn:E.
    + apply Z.leb_le in E.
      replace (Z.to_nat (PyStr.rfind c s + 1 + 1))
        with (S (Z.to_nat (PyStr.rfind c s + 1))) by lia.
      simpl.
      assert (Hc : PyStr.contains c s = true).
      { destruct (PyStr.contains c s) eqn:Hc; [reflexivity|].
        apply rfind_absent in Hc. lia. }
      rewrite Hc, orb_true_r. repeat split; auto; [discriminate|].
      intros _. destruct (IHp Hc) as [pre Hpre].
      exists (String a pre). simpl. now rewrite <- Hpre.
    + apply Z.leb_gt in E.
      assert (Hr : PyStr.rfind c s = (-1)%Z) by lia.
      pose proof Hr as Hc. apply rfind_absent in Hc.
      rewrite Hr in IHn, IHa. simpl in IHn, IHa.
      rewrite Hc, orb_false_r.
      destruct (Ascii.eqb a c) eqn:Ea; simpl.
      * apply ascii_eqb_true in Ea. subst a.
        repeat split; auto; [discriminate|].
        intros _. exists EmptyString. reflexivity.
      * rewrite Ea, Hc. repeat split; auto. discriminate.
Qed.

Lemma basename_no_slash (p : string) :
  PyStr.contains slash (basename p) = false.
Proof. apply (slice_after_rfind slash p). Qed.

(** A normalised key holds no separator. *)
Lemma normalize_key_no_separator (key : string) :
  has_separator (normalize_key key) = false.
Proof.
  unfold has_separator, normalize_key.
  rewrite basename_no_slash. simpl.
  apply contains_slice_from, contains_replace. reflexivity.
Qed.

(** A key without separator is its own normal form. *)
Lemma normalize_key_plain (key : string) :
  has_separator key = false -> normalize_key key = key.
Proof.
  unfold has_separator, normalize_key. intros H.
  apply orb_false_iff in H as [Hs Hb].
  rewrite (replace_absent _ _ _ Hb).
  now apply (slice_after_rfind slash key).
Qed.

Lemma replace_split (old new : ascii) (s pre' b' : string) (x : ascii) :
  PyStr.replace old new s = (pre' ++ String x b')%string ->
  exists pre c b,
    s = (pre ++ String c b)%string /\
    (if Ascii.eqb c old then new else c) = x /\
    PyStr.replace old new b = b'.
Proof.
  revert s. induction pre' as [|y pre' IH]; intros [|a s]; simpl;
    try discriminate; intros H; injection H as Hx Hs.
  - exists EmptyString, a, s. auto.
  - destruct (IH _ Hs) as (pre & c & b & -> & Hc & Hb).
    exists (String a pre), c, b. auto.
Qed.

Lemma contains_replace_new (old new : ascii) (s : string) :
  PyStr.contains new (PyStr.replace old new s) = false ->
  PyStr.contains old s = false.
Proof.
  induction s as [|a s IH]; simpl; [reflexivity|].
  intros H. apply orb_false_iff in H as [Ha Hs].
  rewrite (IH Hs), orb_false_r.
  destruct (Ascii.eqb a old) eqn:E; [|reflexivity].
  now rewrite Ascii.eqb_refl in Ha.
Qed.

Lemma has_separator_replace (key : string) :
  has_separator key = PyStr.contains slash (PyStr.replace backslash slash key).
Proof.
  unfold has_separator. induction key as [|a s IH]; simpl; [reflexivity|].
  rewrite <- IH.
  destruct (Ascii.eqb a backslash) eqn:E; simpl.
  - now rewrite orb_true_r.
  - destruct (Ascii.eqb a slash); simpl; [reflexivity|].
    reflexivity.
Qed.

(** The normal form of a key that holds a separator is the text after its
    last separator. *)
Lemma normalize_key_after_last_separator (key : string) :
  has_separator key = true ->
  exists pre c,
    (c = slash \/ c = backslash) /\
    key = (pre ++ String c (normalize_key key))%string.
Proof.
  intros Hsep. rewrite has_separator_replace in Hsep.
  destruct (slice_after_rfind slash (PyStr.replace backslash slash key))
    as (Hno & _ & Hsplit).
  destruct (Hsplit Hsep) as [pre' Hpre'].
  fold (basename (PyStr.replace backslash slash key)) in Hpre', Hno.
  fold (normalize_key key) in Hpre', Hno.
  destruct (replace_split _ _ _ _ _ _ Hpre') as (pre & c & b & Hkey & Hc & Hb).
  assert (Hbb : PyStr.contains backslash b = false).
  { apply (contains_replace_new backslash slash). now rewrite Hb. }
  rewrite (replace_absent _ _ _ Hbb) in Hb. subst b.
  exists pre, c. split; [|exact Hkey].
  destruct (Ascii.eqb c backslash) eqn:E.
  - right. now apply ascii_eqb_true.
  - now left.
Qed.

Lemma endswith_contains (c : ascii) (s : string) :
  PyStr.endswith c s = true -> PyStr.contains c s = true.
Proof.
  induction s as [|a s IH]; simpl; [discriminate|].
  destruct s as [|a' s'].
  - intros ->. reflexivity.
  - intros H. rewrite (IH H). apply orb_true_r.
Qed.

Lemma endswith_replace (old new : ascii) (s : string) :
  PyStr.endswith old s = true ->
  PyStr.endswith new (PyStr.replace old new s) = true.
Proof.
  induction s as [|a s IH]; simpl; [discriminate|].
  destruct s as [|a' s'].
  - intros ->. simpl. apply Ascii.eqb_refl.
  - intros H. specialize (IH H). exact IH.
Qed.

Lemma endswith_replace_new (old new : ascii) (s : string) :
  PyStr.endswith new s = true ->
  PyStr.endswith new (PyStr.replace old new s) = true.
Proof.
  induction s as [|a s IH]; simpl; [discriminate|].
  destruct s as [|a' s'].
  - intros H. simpl. destruct (Ascii.eqb a old); [apply Ascii.eqb_refl|exact H].
  - intros H. specialize (IH H). exact IH.
Qed.

(** [p[p.rfind(c) + 1:]] is empty when [p] ends with [c]. *)
Lemma slice_after_rfind_endswith (c : ascii) (s : string) :
  PyStr.endswith c s = true ->
  PyStr.slice_from (Z.to_nat (PyStr.rfind c s + 1)) s = EmptyString.
Proof.
  induction s as [|a s IH]; [discriminate|].
  destruct s as [|a' s'].
  - simpl. intros ->. reflexivity.
  - intros H. change (PyStr.endswith c (String a' s') = true) in H.
    specialize (IH H).
    pose proof (endswith_contains _ _ H) as Hc.
    assert (Hr : (0 <= PyStr.rfind c (String a' s'))%Z).
    { pose proof (rfind_lower c (String a' s')).
      destruct (Z.eq_dec (PyStr.rfind c (String a' s')) (-1)) as [E|E];
        [|lia].
      apply rfind_absent in E. congruence. }
    change (PyStr.rfind c (String a (String a' s')))
      with (let i := PyStr.rfind c (String a' s') in
            if (0 <=? i)%Z then (i + 1)%Z
            else if Ascii.eqb a c then 0%Z else (-1)%Z).
    cbv zeta. apply Z.leb_le in Hr. rewrite Hr. apply Z.leb_le in Hr.
    replace (Z.to_nat (PyStr.rfind c (String a' s') + 1 + 1))
      with (S (Z.to_nat (PyStr.rfind c (String a' s') + 1))) by lia.
    exact IH.
Qed.

(** A key that ends with a separator is normalised to the empty string. *)
Lemma normalize_key_trailing_separator (key : string) :
  PyStr.endswith slash key = true \/ PyStr.endswith backslash key = true ->
  normalize_key key = EmptyString.
Proof.
  intros H. unfold normalize_key, basename.
  apply slice_after_rfind_endswith.
  destruct H as [H|H].
  - now apply endswith_replace_new.
  - now apply endswith_replace.
Qed.

(** ** Dictionaries *)

Section DictFacts.
Context {V : Type}.
Implicit Types (d : pydict V) (k : string) (v : V).

Lemma dict_get_set_same k v d : dict_get k (dict_set k v d) = Some v.
Proof.
  induction d as [|[k' v'] d IH]; simpl.
  - now rewrite String.eqb_refl.
  - destruct (String.eqb k' k) eqn:E; simpl; now rewrite E.
Qed.

Lemma dict_get_set_other k k' v d :
  k <> k' -> dict_get k' (dict_set k v d) = dict_get k' d.
Proof.
  intros Hne. induction d as [|[k0 v0] d IH]; simpl.
  - apply String.eqb_neq in Hne. now rewrite Hne.
  - destruct (String.eqb k0 k) eqn:E; simpl.
    + apply String.eqb_eq in E. subst k0.
      apply String.eqb_neq in Hne. now rewrite Hne.
    + now rewrite IH.
Qed.

Lemma dict_get_keys k d :
  In k (dict_keys d) <-> exists v, dict_get k d = Some v.
Proof.
  induction d as [|[k' v'] d IH]; simpl.
  - split; [tauto | intros [v H]; discriminate].
  - destruct (String.eqb k' k) eqn:E.
    + apply String.eqb_eq in E. split; eauto.
    + apply String.eqb_neq in E. rewrite IH. split; [|tauto].
      intros [H|H]; [contradiction | exact H].
Qed.

Lemma dict_contains_keys k d :
  dict_contains k d = true <-> In k (dict_keys d).
Proof.
  rewrite dict_get_keys. unfold dict_contains.
  destruct (dict_get k d); split; eauto; try discriminate.
  intros [v H]. discriminate.
Qed.

Lemma dict_keys_set k k' v d :
  In k' (dict_keys (dict_set k v d)) <-> k' = k \/ In k' (dict_keys d).
Proof.
  rewrite !dict_get_keys.
  destruct (string_dec k k') as [->|Hne].
  - rewrite dict_get_set_same. split; eauto.
  - rewrite dict_get_set_other by exact Hne. split; [tauto|].
    intros [H|H]; [congruence | exact H].
Qed.

Lemma dict_keys_set_present k v d :
  In k (dict_keys d) -> dict_keys (dict_set k v d) = dict_keys d.
Proof.
  induction d as [|[k' v'] d IH]; simpl; [tauto|].
  destruct (String.eqb k' k) eqn:E; simpl; [reflexivity|].
  apply String.eqb_neq in E.
  intros [H|H]; [contradiction|]. now rewrite IH.
Qed.

Lemma dict_keys_set_absent k v d :
  ~ In k (dict_keys d) -> dict_keys (dict_set k v d) = (dict_keys d ++ [k])%list.
Proof.
  induction d as [|[k' v'] d IH]; simpl; [reflexivity|].
  intros H. destruct (String.eqb k' k) eqn:E.
  - apply String.eqb_eq in E. tauto.
  - simpl. rewrite IH; tauto.
Qed.

(** Assignment keeps the keys pairwise distinct. *)
Lemma dict_set_wf k v d : dict_wf d -> dict_wf (dict_set k v d).
Proof.
  unfold dict_wf. intros Hwf.
  destruct (in_dec string_dec k (dict_keys d)) as [Hin|Hout].
  - now rewrite dict_keys_set_present.
  - rewrite dict_keys_set_absent by exact Hout.
    apply NoDup_app; [exact Hwf | repeat constructor; simpl; tauto |].
    intros x Hx [<-|[]]. contradiction.
Qed.

(** *** The merge loop *)

Lemma merge_fold (D : pydict V) :
  forall (m : pydict V) (a p : nat) m' a' p',
    fold_left merge_step D (m, a, p) = (m', a', p') ->
    (forall k, dict_get k m' =
               match dict_get k m with
               | Some v => Some v
               | None => dict_get k D
               end) /\
    a' + p' = a + p + dict_len D /\
    (dict_wf m -> dict_wf m').
Proof.
  induction D as [|[j s] D IH]; intros m a p m' a' p' H; simpl in H.
  - injection H as <- <- <-. split; [|split].
    + intros k. now destruct (dict_get k m).
    + unfold dict_len. simpl. lia.
    + tauto.
  - destruct (dict_contains j m) eqn:Hj.
    + apply IH in H as (Hget & Hcount & Hwf).
      split; [|split; [simpl; lia | exact Hwf]].
      intros k. rewrite Hget. simpl.
      destruct (dict_get k m) eqn:Hk; [reflexivity|].
      destruct (String.eqb j k) eqn:E; [|reflexivity].
      apply String.eqb_eq in E. subst j.
      unfold dict_contains in Hj. now rewrite Hk in Hj.
    + apply IH in H as (Hget & Hcount & Hwf).
      split; [|split; [simpl; lia | auto using dict_set_wf]].
      intros k. rewrite Hget. simpl.
      destruct (String.eqb j k) eqn:E.
      * apply String.eqb_eq in E. subst j.
        rewrite dict_get_set_same.
        unfold dict_contains in Hj. now destruct (dict_get k m).
      * apply String.eqb_neq in E.
        now rewrite dict_get_set_other by exact E.
Qed.

(** Merging identifiers that are all present changes nothing and counts
    every one of them as present. *)
Lemma merge_fold_present (D : pydict V) :
  forall (m : pydict V) (a p : nat),
    (forall k, In k (dict_keys D) -> In k (dict_keys m)) ->
    fold_left merge_step D (m, a, p) = (m, a, p + dict_len D).
Proof.
  induction D as [|[j s] D IH]; intros m a p Hall; simpl.
  - f_equal. lia.
  - assert (Hj : dict_contains j m = true).
    { apply dict_contains_keys, Hall. now left. }
    rewrite Hj, IH.
    + f_equal. unfold dict_len. simpl. lia.
    + intros k Hk. apply Hall. now right.
Qed.

(** *** The normalisation loop *)

Lemma normalize_fold_app (l1 l2 : list (string * V)) (acc : pydict V) :
  fold_left normalize_step (l1 ++ l2)%list acc =
  fold_left normalize_step l2 (fold_left normalize_step l1 acc).
Proof. apply fold_left_app. Qed.

Lemma normalize_fold_untouched (b : string) (l : list (string * V)) :
  forall acc : pydict V,
    (forall k v, In (k, v) l -> normalize_key k <> b) ->
    dict_get b (fold_left normalize_step l acc) = dict_get b acc.
Proof.
  induction l as [|[k v] l IH]; intros acc Hno; simpl; [reflexivity|].
  rewrite IH.
  - apply dict_get_set_other. apply (Hno k v). now left.
  - intros k' v' Hin. apply (Hno k' v'). now right.
Qed.

Lemma normalize_fold_keys (l : list (string * V)) :
  forall (acc : pydict V) (b : string),
    In b (dict_keys (fold_left normalize_step l acc)) <->
    In b (dict_keys acc) \/ exists k, In k (dict_keys l) /\ normalize_key k = b.
Proof.
  induction l as [|[k v] l IH]; intros acc b; simpl.
  - split; [tauto | intros [H|[k [[] _]]]; exact H].
  - rewrite IH, dict_keys_set. split.
    + intros [[->|H]|[k' [Hin Hk]]]; eauto.
    + intros [H|[k' [[<-|Hin] Hk]]]; eauto.
Qed.

Lemma normalize_fold_wf (l : list (string * V)) :
  forall acc : pydict V,
    dict_wf acc -> dict_wf (fold_left normalize_step l acc).
Proof.
  induction l as [|[k v] l IH]; intros acc Hwf; simpl; [exact Hwf|].
  apply IH, dict_set_wf, Hwf.
Qed.

End DictFacts.

(** ** Merge *)

(** Scenario C of the specification. *)
Example merge_scenario_C :
  merge_caches [("jobA", py_True)] [("jobA", py_True); ("jobC", py_True)]
  = ([("jobA", py_True); ("jobC", py_True)], 1, 1).
Proof. reflexivity. Qed.

(** An existing value that is not the scan's [True] stays. *)
Example merge_keeps_existing_value :
  merge_caches [("jobA", JStr "failed")] [("jobA", py_True)]
  = ([("jobA", JStr "failed")], 0, 1).
Proof. reflexivity. Qed.

(** C1 (union correctness).  For every existing cache [E] and discovered
    entries [D], the keys of the merged cache are the keys of [E] together
    with the identifiers of [D]; every key of [E] keeps the value it has in
    [E]; and an identifier that is new gets the value the scan gives it. *)
Theorem merge_caches_union {V : Type} (E D : pydict V) :
  let '(M, _, _) := merge_caches E D in
  (forall k, In k (dict_keys M) <-> In k (dict_keys E) \/ In k (dict_keys D))
  /\ (forall k, In k (dict_keys E) -> dict_get k M = dict_get k E)
  /\ (forall k, ~ In k (dict_keys E) -> dict_get k M = dict_get k D).
Proof.
  destruct (merge_caches E D) as [[M a] p] eqn:HM.
  apply merge_fold in HM as (Hget & _ & _).
  split; [|split].
  - intros k.
    rewrite (dict_get_keys k M), (dict_get_keys k E), (dict_get_keys k D).
    rewrite Hget. unfold dict_copy.
    destruct (dict_get k E) as [v|]; split; eauto.
    intros [[v' H]|H]; [discriminate | exact H].
  - intros k Hk. apply dict_get_keys in Hk as [v Hv].
    rewrite Hget. unfold dict_copy. now rewrite Hv.
  - intros k Hk. rewrite Hget. unfold dict_copy.
    destruct (dict_get k E) as [v|] eqn:Hv; [|reflexivity].
    exfalso. apply Hk, dict_get_keys. eauto.
Qed.

(** C3 (idempotence).  Merging the same discovered entries into the cache a
    first merge returned gives that cache back, adds nothing and counts
    every entry of [D] as already present. *)
Theorem merge_caches_idempotent {V : Type} (E D : pydict V) :
  let '(M, _, _) := merge_caches E D in
  merge_caches M D = (M, 0, dict_len D).
Proof.
  destruct (merge_caches E D) as [[M a] p] eqn:HM.
  apply merge_fold in HM as (Hget & _ & _).
  unfold merge_caches, dict_copy, dict_items.
  rewrite merge_fold_present; [reflexivity|].
  intros k Hk. apply dict_get_keys. rewrite Hget. unfold dict_copy.
  apply dict_get_keys in Hk as [v Hv].
  destruct (dict_get k E); eauto.
Qed.

(** C4 (counting invariant).  The two counters of a merge add up to the
    number of discovered entries. *)
Theorem merge_caches_counts {V : Type} (E D : pydict V) :
  let '(_, added, already_exists) := merge_caches E D in
  added + already_exists = dict_len D.
Proof.
  destruct (merge_caches E D) as [[M a] p] eqn:HM.
  apply merge_fold in HM as (_ & Hcount & _).
  unfold dict_items in Hcount. lia.
Qed.

(** A merge of well-formed dictionaries is well formed. *)
Lemma merge_caches_wf {V : Type} (E D : pydict V) :
  dict_wf E -> dict_wf (fst (fst (merge_caches E D))).
Proof.
  intros Hwf. destruct (merge_caches E D) as [[M a] p] eqn:HM.
  apply merge_fold in HM as (_ & _ & H). now apply H.
Qed.

(** Nothing discovered: the merge is the existing cache. *)
Lemma merge_caches_nil {V : Type} (E : pydict V) :
  merge_caches E [] = (E, 0, 0).
Proof. reflexivity. Qed.

(** ** The effectful functions *)

Lemma logged_nil (w : world) : logged w [] [] = w.
Proof. destruct w. unfold logged. simpl. now rewrite !app_nil_r. Qed.

Lemma logged_logged (w : world) (l1 l2 : list string) (c1 c2 : list call) :
  logged (logged w l1 c1) l2 c2 = logged w (l1 ++ l2) (c1 ++ c2).
Proof. unfold logged. simpl. now rewrite !app_assoc. Qed.

Lemma print_run (line : string) (w : world) :
  print line w = (Return tt, logged w [line] []).
Proof. unfold print, logged. now rewrite app_nil_r. Qed.

Lemma record_call_run (c : call) (w : world) :
  record_call c w = (Return tt, logged w [] [c]).
Proof. unfold record_call, logged. now rewrite app_nil_r. Qed.

Lemma path_exists_file (w : world) (p : string) :
  files w p <> FileMissing -> path_exists w p = true.
Proof.
  unfold path_exists. destruct (dirs w p), (files w p); congruence.
Qed.

Lemma path_exists_logged (w : world) (lines : list string) (cs : list call)
  (p : string) :
  path_exists (logged w lines cs) p = path_exists w p.
Proof. reflexivity. Qed.

(** *** Running a sequence *)

Lemma bind_return {A B : Type} (c : prog A) (k : A -> prog B)
  (w w' : world) (a : A) :
  c w = (Return a, w') -> bind c k w = k a w'.
Proof. intros H. unfold bind. now rewrite H. Qed.

Lemma bind_exit {A B : Type} (c : prog A) (k : A -> prog B)
  (w w' : world) (code : Z) :
  c w = (Exit code, w') -> bind c k w = (Exit code, w').
Proof. intros H. unfold bind. now rewrite H. Qed.

Lemma bind_raise {A B : Type} (c : prog A) (k : A -> prog B)
  (w w' : world) (e : string) :
  c w = (Raise e, w') -> bind c k w = (Raise e, w').
Proof. intros H. unfold bind. now rewrite H. Qed.

Lemma bind_print {B : Type} (line : string) (k : unit -> prog B) (w : world) :
  bind (print line) k w = k tt (logged w [line] []).
Proof. apply bind_return, print_run. Qed.

Lemma bind_record_call {B : Type} (c : call) (k : unit -> prog B)
  (w : world) :
  bind (record_call c) k w = k tt (logged w [] [c]).
Proof. apply bind_return, record_call_run. Qed.

Lemma bind_os_path_exists {B : Type} (p : string) (k : bool -> prog B)
  (w : world) :
  bind (os_path_exists p) k w = k (path_exists w p) w.
Proof. reflexivity. Qed.

Lemma try_return {A : Type} (c : prog A) (h : string -> prog A)
  (w w' : world) (a : A) :
  c w = (Return a, w') -> try_except c h w = (Return a, w').
Proof. intros H. unfold try_except. now rewrite H. Qed.

Lemma try_raise {A : Type} (c : prog A) (h : string -> prog A)
  (w w' : world) (e : string) :
  c w = (Raise e, w') -> try_except c h w = h e w'.
Proof. intros H. unfold try_except. now rewrite H. Qed.

Section LoadFacts.
Variable json_loads : string -> string + json.
Variable output_dir : string.

(** No cache file: the empty cache, nothing printed. *)
Lemma load_absent (w : world) :
  path_exists w (cache_path output_dir) = false ->
  load_completion_cache json_loads output_dir w
  = (Return [], logged w [] [CallLoad output_dir]).
Proof.
  intros H. unfold load_completion_cache, bind, os_path_exists.
  rewrite record_call_run. fold (cache_path output_dir).
  change (path_exists (logged w [] [CallLoad output_dir]) (cache_path output_dir))
    with (path_exists w (cache_path output_dir)).
  now rewrite H.
Qed.

(** The cache file decodes to an object: its normalised members. *)
Lemma load_object (w : world) (text : string) (raw : list (string * json)) :
  files w (cache_path output_dir) = FileText text ->
  json_loads text = inr (JObj raw) ->
  load_completion_cache json_loads output_dir w
  = (Return (normalize_cache raw), logged w [] [CallLoad output_dir]).
Proof.
  intros Hf Hj.
  assert (He : path_exists w (cache_path output_dir) = true)
    by (apply path_exists_file; congruence).
  unfold load_completion_cache, bind, os_path_exists.
  rewrite record_call_run. fold (cache_path output_dir).
  change (path_exists (logged w [] [CallLoad output_dir]) (cache_path output_dir))
    with (path_exists w (cache_path output_dir)).
  rewrite He. unfold try_except, json_load_file, bind, read_text.
  change (files (logged w [] [CallLoad output_dir]) (cache_path output_dir))
    with (files w (cache_path output_dir)).
  rewrite Hf, Hj. reflexivity.
Qed.

(** In every other case the cache file is there and cannot be loaded: one
    warning, the empty cache. *)
Lemma load_unloadable (w : world) :
  path_exists w (cache_path output_dir) = true ->
  (forall text raw,
      files w (cache_path output_dir) = FileText text ->
      json_loads text <> inr (JObj raw)) ->
  exists e,
    load_completion_cache json_loads output_dir w
    = (Return [], logged w [load_warning e] [CallLoad output_dir]) /\
    (forall text e',
        files w (cache_path output_dir) = FileText text ->
        json_loads text = inl e' -> e = e').
Proof.
  intros He Hno.
  unfold load_completion_cache, bind, os_path_exists.
  rewrite record_call_run. fold (cache_path output_dir).
  change (path_exists (logged w [] [CallLoad output_dir]) (cache_path output_dir))
    with (path_exists w (cache_path output_dir)).
  rewrite He. unfold try_except, json_load_file, bind, read_text.
  change (files (logged w [] [CallLoad output_dir]) (cache_path output_dir))
    with (files w (cache_path output_dir)).
  destruct (files w (cache_path output_dir)) as [|e|text] eqn:Hf.
  - eexists. rewrite print_run, logged_logged. simpl.
    split; [reflexivity | discriminate].
  - eexists. rewrite print_run, logged_logged. simpl.
    split; [reflexivity | discriminate].
  - destruct (json_loads text) as [e|v] eqn:Hj.
    + exists e. unfold raise. rewrite print_run, logged_logged. simpl.
      split; [reflexivity|].
      intros text' e' Ht He'. injection Ht as <-. congruence.
    + unfold ret at 1.
      destruct v; try (eexists; unfold py_items, raise;
        rewrite print_run, logged_logged; simpl;
        split; [reflexivity | intros text' e' Ht He'; injection Ht as <-;
                              congruence]).
      exfalso. now apply (Hno text members).
Qed.

(** [load_completion_cache] always returns. *)
Lemma load_returns (w : world) :
  exists cache lines,
    load_completion_cache json_loads output_dir w
    = (Return cache, logged w lines [CallLoad output_dir]).
Proof.
  destruct (path_exists w (cache_path output_dir)) eqn:He.
  - destruct (files w (cache_path output_dir)) as [|e|text] eqn:Hf.
    + destruct (load_unloadable w He) as (e & H & _);
        [intros; congruence | eauto].
    + destruct (load_unloadable w He) as (e' & H & _);
        [intros; congruence | eauto].
    + destruct (json_loads text) as [e|v] eqn:Hj.
      * destruct (load_unloadable w He) as (e' & H & _); [|eauto].
        intros text' raw Ht. congruence.
      * destruct v;
          try (destruct (load_unloadable w He) as (e' & H & _);
               [intros text' raw Ht; congruence | eauto]).
        rewrite (load_object w text members Hf Hj). eauto.
  - rewrite (load_absent w He). eauto.
Qed.

Lemma loaded_cache_run (w : world) :
  exists lines,
    load_completion_cache json_loads output_dir w
    = (Return (loaded_cache json_loads output_dir w),
       logged w lines [CallLoad output_dir]).
Proof.
  destruct (load_returns w) as (cache & lines & H).
  exists lines. unfold loaded_cache. now rewrite H.
Qed.

End LoadFacts.

(** ** Load *)

Lemma loaded_cache_object (json_loads : string -> string + json)
  (output_dir : string) (w : world) (text : string)
  (raw : list (string * json)) :
  files w (cache_path output_dir) = FileText text ->
  json_loads text = inr (JObj raw) ->
  loaded_cache json_loads output_dir w = normalize_cache raw.
Proof.
  intros Hf Hj. unfold loaded_cache.
  now rewrite (load_object json_loads output_dir w text raw Hf Hj).
Qed.

(** The loaded cache is empty or the normal form of the decoded object. *)
Lemma loaded_cache_cases (json_loads : string -> string + json)
  (output_dir : string) (w : world) :
  loaded_cache json_loads output_dir w = [] \/
  exists text raw,
    files w (cache_path output_dir) = FileText text /\
    json_loads text = inr (JObj raw) /\
    loaded_cache json_loads output_dir w = normalize_cache raw.
Proof.
  destruct (path_exists w (cache_path output_dir)) eqn:He.
  - destruct (files w (cache_path output_dir)) as [|e|text] eqn:Hf.
    1,2: left; unfold loaded_cache;
      destruct (load_unloadable json_loads output_dir w He) as (e' & H & _);
      [intros; congruence | now rewrite H].
    destruct (json_loads text) as [e|v] eqn:Hj.
    + left. unfold loaded_cache.
      destruct (load_unloadable json_loads output_dir w He) as (e' & H & _);
        [intros; congruence | now rewrite H].
    + destruct v;
        try (left; unfold loaded_cache;
             destruct (load_unloadable json_loads output_dir w He)
               as (e' & H & _); [intros; congruence | now rewrite H]).
      right. exists text, members. repeat split; auto.
      now apply loaded_cache_object with (text := text).
  - left. unfold loaded_cache.
    now rewrite (load_absent json_loads output_dir w He).
Qed.

Lemma normalize_cache_keys {V : Type} (raw : pydict V) (b : string) :
  In b (dict_keys (normalize_cache raw)) <->
  exists k, In k (dict_keys raw) /\ normalize_key k = b.
Proof.
  unfold normalize_cache, dict_items.
  rewrite (normalize_fold_keys raw [] b). simpl. tauto.
Qed.

Lemma normalize_cache_wf {V : Type} (raw : pydict V) :
  dict_wf (normalize_cache raw).
Proof. apply normalize_fold_wf. constructor. Qed.

(** Scenario B of the specification, and a key with a trailing separator. *)
Example normalize_scenario_B :
  normalize_cache [("/old/path/jobA", py_True)] = [("jobA", py_True)].
Proof. reflexivity. Qed.

Example normalize_trailing_separator :
  normalize_cache [("a/jobA/", py_True)] = [(EmptyString, py_True)].
Proof. reflexivity. Qed.

Example normalize_collision :
  normalize_cache [("/old/path/jobA", py_True); ("x\y\jobA", JBool false)]
  = [("jobA", JBool false)].
Proof. reflexivity. Qed.

(** C2 (key normalisation).  In every world [load_completion_cache] returns
    a cache none of whose keys holds ['/'] or ['\'].  When the cache file
    decodes to an object, a raw key [k] that holds a separator is not a key
    of the returned cache, while [normalize_key k] is, and [normalize_key k]
    is the text of [k] after its last separator. *)
Theorem load_keys_normalized (json_loads : string -> string + json)
  (output_dir : string) (w : world) :
  let cache := loaded_cache json_loads output_dir w in
  (exists lines,
      load_completion_cache json_loads output_dir w
      = (Return cache, logged w lines [CallLoad output_dir])) /\
  (forall b, In b (dict_keys cache) -> has_separator b = false) /\
  (forall text raw k,
      files w (cache_path output_dir) = FileText text ->
      json_loads text = inr (JObj raw) ->
      In k (dict_keys raw) ->
      has_separator k = true ->
      ~ In k (dict_keys cache) /\
      In (normalize_key k) (dict_keys cache) /\
      has_separator (normalize_key k) = false /\
      exists pre c,
        (c = slash \/ c = backslash) /\
        k = (pre ++ String c (normalize_key k))%string).
Proof.
  intros cache.
  assert (Hkeys : forall b, In b (dict_keys cache) -> has_separator b = false).
  { intros b Hb. subst cache.
    destruct (loaded_cache_cases json_loads output_dir w)
      as [H|(text & raw & _ & _ & H)]; rewrite H in Hb.
    - destruct Hb.
    - apply normalize_cache_keys in Hb as (k & _ & <-).
      apply normalize_key_no_separator. }
  split; [apply loaded_cache_run|]. split; [exact Hkeys|].
  intros text raw k Hf Hj Hk Hsep.
  split; [|split; [|split]].
  - intros Hin. apply Hkeys in Hin. congruence.
  - subst cache. rewrite (loaded_cache_object _ _ _ _ _ Hf Hj).
    apply normalize_cache_keys. eauto.
  - apply normalize_key_no_separator.
  - now apply normalize_key_after_last_separator.
Qed.

Lemma load_keys_normalized_witness :
  let cache :=
    loaded_cache sample_loads "out"
      (sample_world DirMissing (FileText "paths") NoFault) in
  ~ In "x\y\jobA" (dict_keys cache) /\ In "jobA" (dict_keys cache).
Proof.
  intros cache.
  destruct (load_keys_normalized sample_loads "out"
              (sample_world DirMissing (FileText "paths") NoFault))
    as (_ & _ & H).
  destruct (H "paths" _ "x\y\jobA" eq_refl eq_refl) as (H1 & H2 & _).
  - simpl. tauto.
  - reflexivity.
  - split; [exact H1 | exact H2].
Defined.

(** C5 (collision policy).  When the cache file decodes to an object, the
    returned cache maps a basename to the value of the last raw entry whose
    key normalises to it; the basename is a key once only, and nothing is
    printed about the entries that were overwritten. *)
Theorem load_last_write_wins (json_loads : string -> string + json)
  (output_dir : string) (w : world) (text : string)
  (before after : list (string * json)) (k : string) (v : json) :
  files w (cache_path output_dir) = FileText text ->
  json_loads text = inr (JObj (before ++ (k, v) :: after)) ->
  (forall k' v', In (k', v') after -> normalize_key k' <> normalize_key k) ->
  let cache := loaded_cache json_loads output_dir w in
  load_completion_cache json_loads output_dir w
  = (Return cache, logged w [] [CallLoad output_dir]) /\
  dict_get (normalize_key k) cache = Some v /\
  dict_wf cache.
Proof.
  intros Hf Hj Hlast cache. subst cache.
  rewrite (loaded_cache_object _ _ _ _ _ Hf Hj).
  split; [now apply load_object with (text := text)|].
  split; [|apply normalize_cache_wf].
  unfold normalize_cache, dict_items.
  rewrite normalize_fold_app. simpl.
  rewrite normalize_fold_untouched by exact Hlast.
  apply dict_get_set_same.
Qed.

Lemma load_last_write_wins_witness :
  dict_get "jobA"
    (loaded_cache sample_loads "out"
       (sample_world DirMissing (FileText "paths") NoFault))
  = Some (JBool false).
Proof.
  refine (proj1 (proj2
    (load_last_write_wins sample_loads "out"
       (sample_world DirMissing (FileText "paths") NoFault) "paths"
       [("/old/path/jobA", py_True)] [("a/jobZ/", JInt 3)]
       "x\y\jobA" (JBool false) eq_refl eq_refl _))).
  intros k' v' [H|[]]. injection H as <- _. discriminate.
Defined.

(** C6 (graceful degradation).  [load_completion_cache] returns in every
    world: it neither exits nor lets an exception out.  Without a cache file
    it returns the empty cache and prints nothing; with a cache file whose
    text does not decode it prints one warning and returns the empty
    cache. *)
Theorem load_degrades_gracefully (json_loads : string -> string + json)
  (output_dir : string) (w : world) :
  (exists cache lines,
      load_completion_cache json_loads output_dir w
      = (Return cache, logged w lines [CallLoad output_dir])) /\
  (path_exists w (cache_path output_dir) = false ->
   load_completion_cache json_loads output_dir w
   = (Return [], logged w [] [CallLoad output_dir])) /\
  (forall text e,
      files w (cache_path output_dir) = FileText text ->
      json_loads text = inl e ->
      load_completion_cache json_loads output_dir w
      = (Return [], logged w [load_warning e] [CallLoad output_dir])).
Proof.
  split; [apply load_returns|]. split; [apply load_absent|].
  intros text e Hf Hj.
  destruct (load_unloadable json_loads output_dir w) as (e' & H & He').
  - apply path_exists_file. congruence.
  - intros text' raw Ht. congruence.
  - now rewrite H, (He' text e Hf Hj).
Qed.

Lemma load_degrades_gracefully_witness :
  load_completion_cache sample_loads "out"
    (sample_world DirMissing FileMissing NoFault)
  = (Return [],
     logged (sample_world DirMissing FileMissing NoFault) []
       [CallLoad "out"]) /\
  load_completion_cache sample_loads "out"
    (sample_world DirMissing (FileText "{not json") NoFault)
  = (Return [],
     logged (sample_world DirMissing (FileText "{not json") NoFault)
       [load_warning "Expecting value: line 1 column 1 (char 0)"]
       [CallLoad "out"]).
Proof.
  split.
  - apply (load_degrades_gracefully sample_loads "out"
             (sample_world DirMissing FileMissing NoFault)).
    reflexivity.
  - apply (load_degrades_gracefully sample_loads "out"
             (sample_world DirMissing (FileText "{not json") NoFault)
           ) with (text := "{not json"); reflexivity.
Defined.

(** C10 (trailing separator).  A raw key that ends with ['/'] or ['\'] is
    normalised to the empty string, so the cache returned for an object that
    has such a key has an entry under the empty string; that entry holds the
    value of the last raw key normalised to the empty string. *)
Theorem load_trailing_separator (json_loads : string -> string + json)
  (output_dir : string) (w : world) (text : string)
  (before after : list (string * json)) (k : string) (v : json) :
  files w (cache_path output_dir) = FileText text ->
  json_loads text = inr (JObj (before ++ (k, v) :: after)) ->
  PyStr.endswith slash k = true \/ PyStr.endswith backslash k = true ->
  let cache := loaded_cache json_loads output_dir w in
  normalize_key k = EmptyString /\
  In EmptyString (dict_keys cache) /\
  ((forall k' v', In (k', v') after -> normalize_key k' <> EmptyString) ->
   dict_get EmptyString cache = Some v).
Proof.
  intros Hf Hj Hend cache.
  pose proof (normalize_key_trailing_separator k Hend) as Hk.
  split; [exact Hk|]. subst cache.
  rewrite (loaded_cache_object _ _ _ _ _ Hf Hj). split.
  - apply normalize_cache_keys. exists k. split; [|exact Hk].
    unfold dict_keys. rewrite map_app. apply in_or_app. right. now left.
  - intros Hlast. unfold normalize_cache, dict_items.
    rewrite normalize_fold_app. simpl.
    rewrite normalize_fold_untouched by exact Hlast.
    rewrite Hk. apply dict_get_set_same.
Qed.

Lemma load_trailing_separator_witness :
  normalize_key "a/jobZ/" = EmptyString /\
  dict_get EmptyString
    (loaded_cache sample_loads "out"
       (sample_world DirMissing (FileText "paths") NoFault))
  = Some (JInt 3).
Proof.
  destruct (load_trailing_separator sample_loads "out"
              (sample_world DirMissing (FileText "paths") NoFault) "paths"
              [("/old/path/jobA", py_True); ("x\y\jobA", JBool false)] []
              "a/jobZ/" (JInt 3) eq_refl eq_refl (or_introl eq_refl))
    as (H1 & _ & H3).
  split; [exact H1|]. apply H3. intros k' v' [].
Defined.

(** ** Scan *)

Lemma find_loop_run (subdirs : list dir_entry) :
  forall (completed_jobs : pydict json) (found_count : nat) (w : world),
  exists lines found_count',
    for_each subdirs (completed_jobs, found_count) find_step w
    = (Return (fold_left completed_step subdirs completed_jobs, found_count'),
       logged w lines []).
Proof.
  induction subdirs as [|entry subdirs IH]; intros acc n w.
  - exists [], n. cbn [for_each fold_left]. unfold ret. now rewrite logged_nil.
  - cbn [for_each fold_left].
    unfold bind at 1, find_step at 1, completed_step at 2.
    destruct (entry_done_files entry) as [|first rest].
    + unfold ret at 1. apply IH.
    + unfold bind at 1. rewrite print_run. unfold ret at 1.
      match goal with
      | |- context [for_each subdirs ?st find_step ?w0] =>
          destruct (IH (fst st) (snd st) w0) as (lines & n' & H)
      end.
      cbn [fst snd] in H. rewrite H, logged_logged. eauto.
Qed.

(** A listable output directory: the scan returns the completed jobs and
    writes nothing but lines on the console. *)
Lemma find_listing (output_dir : string) (w : world)
  (entries : list dir_entry) :
  dirs w output_dir = DirEntries entries ->
  exists lines,
    find_completed_jobs output_dir w
    = (Return (completed_jobs_of entries),
       logged w lines [CallFind output_dir]).
Proof.
  intros Hd.
  assert (He : path_exists w output_dir = true).
  { unfold path_exists. now rewrite Hd. }
  unfold find_completed_jobs.
  rewrite bind_record_call, bind_os_path_exists, path_exists_logged, He.
  cbn [negb].
  rewrite (bind_return _ _ _ (logged w [] [CallFind output_dir])
             (filter is_job_dir entries)).
  2: { apply try_return.
       rewrite (bind_return _ _ _ (logged w [] [CallFind output_dir]) entries);
         [reflexivity|].
       unfold os_scandir. cbn [dirs logged]. now rewrite Hd. }
  rewrite bind_print, logged_logged.
  match goal with
  | |- context [bind (for_each ?l ?st find_step) _ ?w0] =>
      destruct (find_loop_run l (fst st) (snd st) w0) as (lines & n' & H)
  end.
  cbn [fst snd] in H. rewrite (bind_return _ _ _ _ _ H).
  rewrite bind_print. unfold ret. rewrite !logged_logged.
  unfold completed_jobs_of. eauto.
Qed.

(** An output directory that is missing or cannot be listed: exit 1, and
    nothing but one line on the console. *)
Lemma find_fails (output_dir : string) (w : world) :
  (forall entries, dirs w output_dir <> DirEntries entries) ->
  exists line,
    find_completed_jobs output_dir w
    = (Exit 1%Z, logged w [line] [CallFind output_dir]).
Proof.
  intros Hd. unfold find_completed_jobs.
  rewrite bind_record_call, bind_os_path_exists, path_exists_logged.
  destruct (path_exists w output_dir) eqn:He; cbn [negb].
  - destruct (dirs w output_dir) as [|e|entries] eqn:Hdir.
    + eexists. apply bind_exit. erewrite try_raise.
      2: { apply bind_raise. unfold os_scandir. cbn [dirs logged].
           rewrite Hdir. reflexivity. }
      rewrite bind_print, logged_logged. reflexivity.
    + eexists. apply bind_exit. erewrite try_raise.
      2: { apply bind_raise. unfold os_scandir. cbn [dirs logged].
           rewrite Hdir. reflexivity. }
      rewrite bind_print, logged_logged. reflexivity.
    + exfalso. now apply (Hd entries).
  - rewrite bind_print, logged_logged. unfold sys_exit. cbn [app]. eauto.
Qed.

(** ** Save *)

Lemma set_file_logged (w : world) (lines : list string) (cs : list call)
  (p : string) (f : file_state) :
  set_file (logged w lines cs) p f = logged (set_file w p f) lines cs.
Proof. reflexivity. Qed.

(** The write succeeds: the file holds the dump of the cache. *)
Lemma save_written (output_dir : string) (cache : pydict json) (w : world) :
  faults w (cache_path output_dir) = NoFault ->
  save_completion_cache output_dir cache w
  = (Return tt,
     logged
       (set_file w (cache_path output_dir)
          (FileText (JsonDump.dumps (JObj cache))))
       [saved_line (cache_path output_dir)]
       [CallSave output_dir cache]).
Proof.
  intros Hf. unfold save_completion_cache, bind at 1.
  rewrite record_call_run. fold (cache_path output_dir).
  unfold try_except, bind, write_text.
  change (faults (logged w [] [CallSave output_dir cache])
            (cache_path output_dir))
    with (faults w (cache_path output_dir)).
  rewrite Hf, set_file_logged, print_run, logged_logged. reflexivity.
Qed.

(** The write fails: one error line, exit 1. *)
Lemma save_fails (output_dir : string) (cache : pydict json) (w : world) :
  faults w (cache_path output_dir) <> NoFault ->
  exists e w',
    save_completion_cache output_dir cache w = (Exit 1%Z, w') /\
    stdout w' = stdout w ++ [save_error_line e] /\
    calls w' = calls w ++ [CallSave output_dir cache] /\
    dirs w' = dirs w /\
    (forall e', faults w (cache_path output_dir) = OpenRaises e' ->
                files w' = files w).
Proof.
  intros Hf. unfold save_completion_cache, bind at 1.
  rewrite record_call_run. fold (cache_path output_dir).
  unfold try_except, bind at 1, write_text.
  change (faults (logged w [] [CallSave output_dir cache])
            (cache_path output_dir))
    with (faults w (cache_path output_dir)).
  destruct (faults w (cache_path output_dir)) as [|e|n e] eqn:Hfault.
  - congruence.
  - exists e. eexists.
    unfold bind. rewrite print_run, logged_logged. unfold sys_exit.
    split; [reflexivity|]. simpl. auto.
  - exists e. eexists.
    unfold bind. rewrite set_file_logged, print_run, logged_logged.
    unfold sys_exit. split; [reflexivity|]. simpl.
    repeat split; auto. discriminate.
Qed.

(** ** The whole run *)

(** What is loaded does not depend on the console or on the call log. *)
Lemma loaded_cache_logged (json_loads : string -> string + json)
  (output_dir : string) (w : world) (lines : list string) (cs : list call) :
  loaded_cache json_loads output_dir (logged w lines cs)
  = loaded_cache json_loads output_dir w.
Proof.
  destruct (loaded_cache_cases json_loads output_dir w)
    as [H|(text & raw & Hf & Hj & H)].
  - destruct (loaded_cache_cases json_loads output_dir (logged w lines cs))
      as [H'|(text & raw & Hf & Hj & H')].
    + congruence.
    + cbn [files logged] in Hf.
      rewrite H', (loaded_cache_object _ _ _ _ _ Hf Hj). reflexivity.
  - rewrite H. now apply loaded_cache_object with (text := text).
Qed.

Section MainFacts.
Variable json_loads : string -> string + json.
Variables prog_name output_dir : string.

(** A failing save ends the run, whatever would follow it. *)
Lemma main_save_fails (w : world) (lines : list string)
  (cache : pydict json) (k : unit -> prog unit) :
  faults w (cache_path output_dir) <> NoFault ->
  exists w',
    bind (save_completion_cache output_dir cache) k
      (logged w lines [CallLoad output_dir; CallFind output_dir])
    = (Exit 1%Z, w') /\
    calls w' = calls w ++ [CallLoad output_dir; CallFind output_dir;
                           CallSave output_dir cache] /\
    dirs w' = dirs w /\
    (forall e, faults w (cache_path output_dir) = OpenRaises e ->
               files w' = files w).
Proof.
  intros Hfault.
  destruct (save_fails output_dir cache
              (logged w lines [CallLoad output_dir; CallFind output_dir]))
    as (e & w' & Hs & _ & Hcs & Hds & Hfs); [exact Hfault|].
  exists w'. rewrite (bind_exit _ _ _ _ _ Hs).
  split; [reflexivity|]. split; [|split].
  - rewrite Hcs. cbn [calls logged]. now rewrite <- app_assoc.
  - exact Hds.
  - intros e' He'. now rewrite (Hfs e' He').
Qed.

(** The run, for a listable output directory. *)
Lemma main_listing (w : world) (entries : list dir_entry) :
  dirs w output_dir = DirEntries entries ->
  let existing := loaded_cache json_loads output_dir w in
  let completed := completed_jobs_of entries in
  let merged := fst (fst (merge_caches existing completed)) in
  let p := cache_path output_dir in
  if dict_truthy existing || dict_truthy completed then
    match faults w p with
    | NoFault =>
        exists lines,
          main json_loads [prog_name; output_dir] w
          = (Return tt,
             logged (set_file w p (FileText (JsonDump.dumps (JObj merged))))
               lines
               [CallLoad output_dir; CallFind output_dir;
                CallSave output_dir merged])
    | _ =>
        exists w',
          main json_loads [prog_name; output_dir] w = (Exit 1%Z, w') /\
          calls w' = calls w ++ [CallLoad output_dir; CallFind output_dir;
                                 CallSave output_dir merged] /\
          dirs w' = dirs w /\
          (forall e, faults w p = OpenRaises e -> files w' = files w)
    end
  else
    exists lines,
      main json_loads [prog_name; output_dir] w
      = (Return tt,
         logged w lines [CallLoad output_dir; CallFind output_dir]).
Proof.
  intros Hd existing completed merged p. subst p.
  unfold main. cbn [List.length Nat.eqb negb nth].
  rewrite !bind_print, !logged_logged.
  match goal with
  | |- context [bind (load_completion_cache _ _) _ ?w0] =>
      destruct (loaded_cache_run json_loads output_dir w0) as (l1 & Hl);
      rewrite (bind_return _ _ _ _ _ Hl); clear Hl
  end.
  rewrite loaded_cache_logged. fold existing.
  rewrite !bind_print, !logged_logged.
  match goal with
  | |- context [bind (find_completed_jobs _) _ ?w0] =>
      destruct (find_listing output_dir w0 entries Hd) as (l2 & Hf);
      rewrite (bind_return _ _ _ _ _ Hf); clear Hf
  end.
  fold completed. rewrite !logged_logged.
  destruct (dict_truthy completed) eqn:Hc; cbn [negb].
  - rewrite orb_true_r. rewrite !bind_print, !logged_logged.
    destruct (merge_caches existing completed) as [[m a] al] eqn:Hm.
    subst merged. cbn [fst].
    rewrite !bind_print, !logged_logged.
    destruct (faults w (cache_path output_dir)) as [|e|n e] eqn:Hfault.
    + erewrite bind_return by (apply save_written; exact Hfault).
      rewrite !bind_print, print_run, set_file_logged, !logged_logged.
      cbn [app]. eauto.
    + cbn [app]. rewrite <- Hfault.
      apply main_save_fails. rewrite Hfault. discriminate.
    + cbn [app]. rewrite <- Hfault.
      apply main_save_fails. rewrite Hfault. discriminate.
  - rewrite orb_false_r. rewrite bind_print, !logged_logged.
    assert (Hnil : completed = []) by (now destruct completed).
    assert (Hmerged : merged = existing).
    { subst merged. now rewrite Hnil. }
    rewrite Hmerged.
    destruct (dict_truthy existing) eqn:He.
    + rewrite bind_print, !logged_logged.
      destruct (faults w (cache_path output_dir)) as [|e|n e] eqn:Hfault.
      * erewrite bind_return by (apply save_written; exact Hfault).
        rewrite print_run, set_file_logged, !logged_logged.
        cbn [app]. eauto.
      * cbn [app]. rewrite <- Hfault.
      apply main_save_fails. rewrite Hfault. discriminate.
      * cbn [app]. rewrite <- Hfault.
      apply main_save_fails. rewrite Hfault. discriminate.
    + rewrite print_run, !logged_logged. cbn [app]. eauto.
Qed.

(** The run, for an output directory that is missing or cannot be listed. *)
Lemma main_unlistable (w : world) :
  (forall entries, dirs w output_dir <> DirEntries entries) ->
  exists lines,
    main json_loads [prog_name; output_dir] w
    = (Exit 1%Z, logged w lines [CallLoad output_dir; CallFind output_dir]).
Proof.
  intros Hd. unfold main. cbn [List.length Nat.eqb negb nth].
  rewrite !bind_print, !logged_logged.
  match goal with
  | |- context [bind (load_completion_cache _ _) _ ?w0] =>
      destruct (loaded_cache_run json_loads output_dir w0) as (l1 & Hl);
      rewrite (bind_return _ _ _ _ _ Hl); clear Hl
  end.
  rewrite !bind_print, !logged_logged.
  match goal with
  | |- context [bind (find_completed_jobs _) _ ?w0] =>
      destruct (find_fails output_dir w0 Hd) as (line & Hf);
      rewrite (bind_exit _ _ _ _ _ Hf); clear Hf
  end.
  rewrite !logged_logged. cbn [app]. eauto.
Qed.

End MainFacts.


Lemma save_calls_app (c1 c2 : list call) :
  save_calls (c1 ++ c2) = save_calls c1 ++ save_calls c2.
Proof.
  induction c1 as [|c c1 IH]; [reflexivity|].
  destruct c; cbn [app save_calls]; now rewrite IH.
Qed.

(** C7 (orchestration rule).  In a run with one argument whose output
    directory can be listed, [save_completion_cache] is called once, with
    the merged cache, when the loaded cache or the dictionary of completed
    jobs is non-empty, and is not called when both are empty.  A non-empty
    loaded cache is saved whatever the number of added entries is.  The run
    ends with status 0 unless the save it makes fails; when nothing is saved
    no file changes. *)
Theorem main_saves_unless_both_empty (json_loads : string -> string + json)
  (prog_name output_dir : string) (w : world) (entries : list dir_entry) :
  dirs w output_dir = DirEntries entries ->
  let existing := loaded_cache json_loads output_dir w in
  let completed := completed_jobs_of entries in
  let merged := fst (fst (merge_caches existing completed)) in
  let result := run json_loads [prog_name; output_dir] w in
  (exists lines,
      load_completion_cache json_loads output_dir w
      = (Return existing, logged w lines [CallLoad output_dir])) /\
  (exists lines,
      find_completed_jobs output_dir w
      = (Return completed, logged w lines [CallFind output_dir])) /\
  save_calls (calls (snd result))
  = save_calls (calls w)
      ++ (if dict_truthy existing || dict_truthy completed
          then [(output_dir, merged)] else []) /\
  (dict_truthy existing = true ->
   save_calls (calls (snd result))
   = save_calls (calls w) ++ [(output_dir, merged)]) /\
  (dict_truthy existing || dict_truthy completed = false ->
   fst result = 0%Z /\ files (snd result) = files w) /\
  (faults w (cache_path output_dir) = NoFault -> fst result = 0%Z).
Proof.
  intros Hd existing completed merged result.
  pose proof (main_listing json_loads prog_name output_dir w entries Hd)
    as Hmain.
  cbv zeta in Hmain. fold existing completed merged in Hmain.
  split; [apply loaded_cache_run|].
  split; [now apply find_listing|].
  assert (Hcalls :
    save_calls (calls (snd result))
    = save_calls (calls w)
        ++ (if dict_truthy existing || dict_truthy completed
            then [(output_dir, merged)] else [])
    /\ (dict_truthy existing || dict_truthy completed = false ->
        fst result = 0%Z /\ files (snd result) = files w)
    /\ (faults w (cache_path output_dir) = NoFault -> fst result = 0%Z)).
  { subst result. unfold run.
    destruct (dict_truthy existing || dict_truthy completed).
    - destruct (faults w (cache_path output_dir)) eqn:Hfault.
      + destruct Hmain as (lines & ->). cbn [fst snd calls logged set_file].
        rewrite save_calls_app. repeat split; auto; discriminate.
      + destruct Hmain as (w' & -> & Hcs & _). cbn [fst snd].
        rewrite Hcs, save_calls_app. repeat split; auto; discriminate.
      + destruct Hmain as (w' & -> & Hcs & _). cbn [fst snd].
        rewrite Hcs, save_calls_app. repeat split; auto; discriminate.
    - destruct Hmain as (lines & ->). cbn [fst snd calls logged files].
      rewrite save_calls_app. repeat split; auto. }
  destruct Hcalls as (Hc & Hnone & Hok).
  split; [exact Hc|]. split; [|split; [exact Hnone | exact Hok]].
  intros He. rewrite Hc, He. reflexivity.
Qed.

Lemma main_saves_unless_both_empty_witness :
  save_calls
    (calls (snd (run sample_loads ["migrate_done_to_cache.py"; "out"]
                   (sample_world (DirEntries []) (FileText "paths") NoFault))))
  = [("out", [("jobA", JBool false); (EmptyString, JInt 3)])].
Proof.
  exact (proj1 (proj2 (proj2
    (main_saves_unless_both_empty sample_loads "migrate_done_to_cache.py"
       "out" (sample_world (DirEntries []) (FileText "paths") NoFault)
       [] eq_refl)))).
Defined.

(** C8 (missing root).  When the output directory does not exist or cannot
    be listed, [find_completed_jobs] exits with status 1, and so does the
    run; no file is written or changed and [save_completion_cache] is not
    called. *)
Theorem missing_root_is_fatal (json_loads : string -> string + json)
  (prog_name output_dir : string) (w : world) :
  (forall entries, dirs w output_dir <> DirEntries entries) ->
  let result := run json_loads [prog_name; output_dir] w in
  (exists line,
      find_completed_jobs output_dir w
      = (Exit 1%Z, logged w [line] [CallFind output_dir])) /\
  fst result = 1%Z /\
  files (snd result) = files w /\
  save_calls (calls (snd result)) = save_calls (calls w).
Proof.
  intros Hd result. split; [now apply find_fails|].
  destruct (main_unlistable json_loads prog_name output_dir w Hd)
    as (lines & Hmain).
  subst result. unfold run. rewrite Hmain.
  cbn [fst snd files calls logged]. rewrite save_calls_app.
  cbn [save_calls]. now rewrite app_nil_r.
Qed.

Lemma missing_root_is_fatal_witness :
  let result :=
    run sample_loads ["migrate_done_to_cache.py"; "out"]
      (sample_world DirMissing (FileText "paths") NoFault) in
  fst result = 1%Z /\
  files (snd result) = files (sample_world DirMissing (FileText "paths") NoFault).
Proof.
  intros result.
  destruct (missing_root_is_fatal sample_loads "migrate_done_to_cache.py"
              "out" (sample_world DirMissing (FileText "paths") NoFault))
    as (_ & H1 & H2 & _).
  - intros entries. discriminate.
  - split; [exact H1 | exact H2].
Defined.

(** Scenarios A, B, D and E of the specification. *)
Example run_scenario_A :
  let result :=
    run sample_loads ["migrate_done_to_cache.py"; "out"]
      (sample_world (DirEntries sample_entries) FileMissing NoFault) in
  fst result = 0%Z /\
  files (snd result) "out/.completion_cache.json"
  = FileText (JsonDump.dumps (JObj [("jobA", py_True)])).
Proof. split; reflexivity. Qed.

Example run_scenario_B :
  let result :=
    run sample_loads ["migrate_done_to_cache.py"; "out"]
      (sample_world (DirEntries []) (FileText "scenario B") NoFault) in
  fst result = 0%Z /\
  files (snd result) "out/.completion_cache.json"
  = FileText (JsonDump.dumps (JObj [("jobA", py_True)])).
Proof. split; reflexivity. Qed.

Example run_scenario_D :
  let result :=
    run sample_loads ["migrate_done_to_cache.py"; "out"]
      (sample_world DirMissing FileMissing NoFault) in
  fst result = 1%Z /\
  files (snd result) "out/.completion_cache.json" = FileMissing /\
  save_calls (calls (snd result)) = [].
Proof. repeat split; reflexivity. Qed.

Example run_scenario_E :
  let result :=
    run sample_loads ["migrate_done_to_cache.py"; "out"]
      (sample_world (DirEntries []) FileMissing NoFault) in
  fst result = 0%Z /\
  files (snd result) "out/.completion_cache.json" = FileMissing /\
  save_calls (calls (snd result)) = [].
Proof. repeat split; reflexivity. Qed.

(** A disk that fills up while the cache is written: exit 1. *)
Example run_write_failure :
  fst (run sample_loads ["migrate_done_to_cache.py"; "out"]
         (sample_world (DirEntries sample_entries) FileMissing
            (WriteRaises 5 "[Errno 28] No space left on device")))
  = 1%Z.
Proof. reflexivity. Qed.

(** ** The sorted dump *)

Lemma leb_false_lt (a b : string) :
  String.leb a b = false -> String_as_OT.lt b a.
Proof.
  unfold String.leb. intros H. apply String_as_OT.cmp_lt.
  unfold String_as_OT.cmp. rewrite String.compare_antisym.
  now destruct (String.compare a b).
Qed.

Lemma leb_true_cases (a b : string) :
  String.leb a b = true -> a = b \/ String_as_OT.lt a b.
Proof.
  unfold String.leb. intros H.
  destruct (String.compare a b) eqn:E; try discriminate.
  - left. now apply String.compare_eq_iff.
  - right. now apply String_as_OT.cmp_lt.
Qed.

Section SortFacts.
Context {A : Type}.
Implicit Types (x y : string * A) (l : list (string * A)).

Lemma key_lt_trans x y z : key_lt x y -> key_lt y z -> key_lt x z.
Proof. unfold key_lt. apply String_as_OT.lt_trans. Qed.

Lemma key_lt_irrefl x y : key_lt x y -> fst x <> fst y.
Proof. unfold key_lt. apply String_as_OT.lt_not_eq. Qed.

Lemma insert_item_perm x l : Permutation (JsonDump.insert_item x l) (x :: l).
Proof.
  induction l as [|y l IH]; simpl; [reflexivity|].
  destruct (String.leb (fst x) (fst y)); [reflexivity|].
  rewrite IH. apply perm_swap.
Qed.

Lemma sorted_items_perm l : Permutation (JsonDump.sorted_items l) l.
Proof.
  induction l as [|x l IH]; simpl; [reflexivity|].
  rewrite insert_item_perm. now constructor.
Qed.

Lemma insert_item_sorted x l :
  ~ In (fst x) (map fst l) ->
  StronglySorted key_lt l ->
  StronglySorted key_lt (JsonDump.insert_item x l).
Proof.
  induction l as [|y l IH]; intros Hx Hs; simpl.
  - repeat constructor.
  - inversion Hs as [|? ? Hs' Hall]; subst.
    destruct (String.leb (fst x) (fst y)) eqn:E.
    + assert (Hxy : key_lt x y).
      { destruct (leb_true_cases _ _ E) as [Heq|Hlt]; [|exact Hlt].
        exfalso. apply Hx. left. now symmetry. }
      constructor; [exact Hs|]. constructor; [exact Hxy|].
      eapply Forall_impl; [|exact Hall].
      intros z Hz. now apply key_lt_trans with y.
    + constructor.
      * apply IH; [|exact Hs']. intros Hin. apply Hx. now right.
      * apply Forall_forall. intros z Hz.
        apply (Permutation_in _ (insert_item_perm x l)) in Hz.
        destruct Hz as [<-|Hz].
        -- now apply leb_false_lt.
        -- now apply (proj1 (Forall_forall _ _) Hall).
Qed.

(** Sorting a dictionary puts its keys in strictly increasing order. *)
Lemma sorted_items_sorted l :
  dict_wf l -> StronglySorted key_lt (JsonDump.sorted_items l).
Proof.
  unfold dict_wf, dict_keys.
  induction l as [|x l IH]; intros Hwf; simpl; [constructor|].
  inversion Hwf as [|? ? Hx Hnd]; subst.
  apply insert_item_sorted; [|now apply IH].
  intros Hin. apply Hx.
  eapply Permutation_in; [|exact Hin].
  apply Permutation_map, sorted_items_perm.
Qed.

(** A list has one strictly sorted arrangement. *)
Lemma sorted_unique l1 :
  forall l2,
    StronglySorted key_lt l1 -> StronglySorted key_lt l2 ->
    Permutation l1 l2 -> l1 = l2.
Proof.
  induction l1 as [|x l1 IH]; intros l2 H1 H2 Hp.
  - apply Permutation_nil in Hp. now subst.
  - destruct l2 as [|y l2].
    + apply Permutation_sym, Permutation_nil in Hp. discriminate.
    + inversion H1 as [|? ? H1' Hall1]; subst.
      inversion H2 as [|? ? H2' Hall2]; subst.
      assert (Hxy : x = y).
      { assert (Hx : In x (y :: l2))
          by (eapply Permutation_in; [exact Hp | now left]).
        assert (Hy : In y (x :: l1))
          by (eapply Permutation_in;
              [apply Permutation_sym; exact Hp | now left]).
        destruct Hx as [Hx|Hx]; [now symmetry|].
        destruct Hy as [Hy|Hy]; [exact Hy|].
        exfalso.
        pose proof (proj1 (Forall_forall _ _) Hall2 x Hx) as Hyx.
        pose proof (proj1 (Forall_forall _ _) Hall1 y Hy) as Hxy.
        now apply (key_lt_irrefl x x (key_lt_trans _ _ _ Hxy Hyx)). }
      subst y. f_equal. apply IH; auto.
      now apply Permutation_cons_inv with x.
Qed.

Lemma dict_get_in (d : pydict A) (k : string) (v : A) :
  dict_wf d -> (In (k, v) d <-> dict_get k d = Some v).
Proof.
  unfold dict_wf, dict_keys.
  induction d as [|[k' v'] d IH]; intros Hwf; simpl.
  - split; [tauto | discriminate].
  - inversion Hwf as [|? ? Hk Hnd]; subst.
    destruct (String.eqb k' k) eqn:E.
    + apply String.eqb_eq in E. subst k'. split.
      * intros [H|H]; [congruence|].
        exfalso. apply Hk. now apply (in_map fst) in H.
      * intros H. left. congruence.
    + apply String.eqb_neq in E. rewrite <- (IH Hnd). split.
      * intros [H|H]; [congruence | exact H].
      * now right.
Qed.

(** Two dictionaries with the same content are permutations of each
    other. *)
Lemma dict_same_content_perm (c1 c2 : pydict A) :
  dict_wf c1 -> dict_wf c2 ->
  (forall k, dict_get k c1 = dict_get k c2) ->
  Permutation c1 c2.
Proof.
  intros H1 H2 Hget.
  apply NoDup_Permutation.
  - now apply NoDup_map_inv with (f := fst).
  - now apply NoDup_map_inv with (f := fst).
  - intros [k v]. rewrite (dict_get_in c1 k v H1), (dict_get_in c2 k v H2).
    now rewrite Hget.
Qed.

(** The order [json.dump] writes does not depend on the insertion order. *)
Lemma sorted_items_same_content (c1 c2 : pydict A) :
  dict_wf c1 -> dict_wf c2 ->
  (forall k, dict_get k c1 = dict_get k c2) ->
  JsonDump.sorted_items c1 = JsonDump.sorted_items c2.
Proof.
  intros H1 H2 Hget. apply sorted_unique.
  - now apply sorted_items_sorted.
  - now apply sorted_items_sorted.
  - rewrite !sorted_items_perm. now apply dict_same_content_perm.
Qed.

End SortFacts.

Lemma insert_item_map {A B : Type} (g : string * A -> string * B)
  (x : string * A) (l : list (string * A)) :
  (forall y, fst (g y) = fst y) ->
  JsonDump.insert_item (g x) (map g l) = map g (JsonDump.insert_item x l).
Proof.
  intros Hg. induction l as [|y l IH]; simpl; [reflexivity|].
  rewrite !Hg. destruct (String.leb (fst x) (fst y)); simpl; [reflexivity|].
  now rewrite IH.
Qed.

Lemma sorted_items_map {A B : Type} (g : string * A -> string * B)
  (l : list (string * A)) :
  (forall y, fst (g y) = fst y) ->
  JsonDump.sorted_items (map g l) = map g (JsonDump.sorted_items l).
Proof.
  intros Hg. induction l as [|x l IH]; simpl; [reflexivity|].
  rewrite IH. now apply insert_item_map.
Qed.

(** The dump of a dictionary is the text of its members in key order. *)
Lemma dumps_object_sorted (cache : pydict json) :
  JsonDump.dumps (JObj cache)
  = JsonDump.object_text 0 (JsonDump.sorted_items cache).
Proof.
  destruct cache as [|x r]; [reflexivity|].
  unfold JsonDump.dumps. cbn [JsonDump.iterencode].
  rewrite (sorted_items_map
             (fun kv => (fst kv, JsonDump.iterencode 1 (snd kv))))
    by reflexivity.
  rewrite map_map. unfold JsonDump.object_text.
  destruct (JsonDump.sorted_items (x :: r)) as [|y s] eqn:E; [|reflexivity].
  exfalso. pose proof (sorted_items_perm (x :: r)) as Hp.
  rewrite E in Hp. now apply Permutation_nil in Hp.
Qed.

(** What [save_completion_cache] does, by what the write does. *)
Lemma save_run (output_dir : string) (cache : pydict json) (w : world) :
  save_completion_cache output_dir cache w
  = match faults w (cache_path output_dir) with
    | NoFault =>
        (Return tt,
         logged
           (set_file w (cache_path output_dir)
              (FileText (JsonDump.dumps (JObj cache))))
           [saved_line (cache_path output_dir)]
           [CallSave output_dir cache])
    | OpenRaises e =>
        (Exit 1%Z,
         logged w [save_error_line e] [CallSave output_dir cache])
    | WriteRaises written e =>
        (Exit 1%Z,
         logged
           (set_file w (cache_path output_dir)
              (FileText
                 (String.substring 0 written
                    (JsonDump.dumps (JObj cache)))))
           [save_error_line e]
           [CallSave output_dir cache])
    end.
Proof.
  destruct (faults w (cache_path output_dir)) as [|e|n e] eqn:Hfault.
  - now apply save_written.
  - unfold save_completion_cache. rewrite bind_record_call.
    fold (cache_path output_dir). erewrite try_raise.
    2: { apply bind_raise. unfold write_text. cbn [faults logged].
         rewrite Hfault. reflexivity. }
    rewrite bind_print, logged_logged. reflexivity.
  - unfold save_completion_cache. rewrite bind_record_call.
    fold (cache_path output_dir). erewrite try_raise.
    2: { apply bind_raise. unfold write_text. cbn [faults logged].
         rewrite Hfault. reflexivity. }
    rewrite bind_print, set_file_logged, logged_logged. reflexivity.
Qed.

(** C9 (deterministic save).  Two well-formed caches that map every key to
    the same value, whatever their insertion orders, are dumped to the same
    text, and saving either one in a world gives the same outcome, the same
    files and the same console.  The text is that of the members in strictly
    increasing key order.  When the write cannot complete, the call exits
    with status 1, whatever was to follow it. *)
Theorem save_is_deterministic (output_dir : string) (c1 c2 : pydict json)
  (w : world) :
  dict_wf c1 -> dict_wf c2 ->
  (forall k, dict_get k c1 = dict_get k c2) ->
  let r1 := save_completion_cache output_dir c1 w in
  let r2 := save_completion_cache output_dir c2 w in
  JsonDump.dumps (JObj c1) = JsonDump.dumps (JObj c2) /\
  (fst r1 = fst r2 /\
   files (snd r1) = files (snd r2) /\
   stdout (snd r1) = stdout (snd r2)) /\
  (JsonDump.dumps (JObj c1)
   = JsonDump.object_text 0 (JsonDump.sorted_items c1) /\
   StronglySorted key_lt (JsonDump.sorted_items c1) /\
   Permutation (JsonDump.sorted_items c1) c1) /\
  (faults w (cache_path output_dir) = NoFault ->
   fst r1 = Return tt /\
   files (snd r1) (cache_path output_dir)
   = FileText (JsonDump.dumps (JObj c1))) /\
  (faults w (cache_path output_dir) <> NoFault ->
   fst r1 = Exit 1%Z /\
   forall k : unit -> prog unit,
     fst (bind (save_completion_cache output_dir c1) k w) = Exit 1%Z).
Proof.
  intros H1 H2 Hget r1 r2.
  assert (Hdump : JsonDump.dumps (JObj c1) = JsonDump.dumps (JObj c2)).
  { rewrite !dumps_object_sorted.
    now rewrite (sorted_items_same_content c1 c2 H1 H2 Hget). }
  split; [exact Hdump|].
  subst r1 r2. split; [|split; [|split]].
  - rewrite !save_run, Hdump.
    destruct (faults w (cache_path output_dir)); cbn; auto.
  - split; [apply dumps_object_sorted|].
    split; [now apply sorted_items_sorted | apply sorted_items_perm].
  - intros Hfault. rewrite save_run, Hfault. cbn [fst snd files logged set_file].
    now rewrite String.eqb_refl.
  - intros Hfault.
    assert (Hexit : fst (save_completion_cache output_dir c1 w) = Exit 1%Z).
    { rewrite save_run.
      destruct (faults w (cache_path output_dir)); [congruence| |];
        reflexivity. }
    split; [exact Hexit|]. intros k. unfold bind.
    destruct (save_completion_cache output_dir c1 w) as [[a|e|code] w'];
      cbn [fst] in Hexit; try discriminate.
    exact Hexit.
Qed.

Lemma save_is_deterministic_witness :
  JsonDump.dumps (JObj [("jobB", py_True); ("jobA", JStr "x")])
  = JsonDump.dumps (JObj [("jobA", JStr "x"); ("jobB", py_True)]).
Proof.
  refine (proj1
    (save_is_deterministic "out"
       [("jobB", py_True); ("jobA", JStr "x")]
       [("jobA", JStr "x"); ("jobB", py_True)]
       (sample_world (DirEntries []) FileMissing NoFault) _ _ _)).
  - repeat constructor; simpl; intuition discriminate.
  - repeat constructor; simpl; intuition discriminate.
  - intros k. cbn [dict_get].
    destruct (String.eqb "jobB" k) eqn:EB, (String.eqb "jobA" k) eqn:EA;
      try reflexivity.
    apply String.eqb_eq in EB, EA. congruence.
Defined.

(** The text written for the cache of scenario A, and for one whose
    insertion order is not the key order. *)
Example dumps_scenario_A :
  JsonDump.dumps (JObj [("jobA", py_True)])
  = ("{" ++ nl ++ "  " ++ JsonDump.str1 JsonDump.quote ++ "jobA"
       ++ JsonDump.str1 JsonDump.quote ++ ": true" ++ nl ++ "}")%string.
Proof. reflexivity. Qed.

Example dumps_sorts_keys :
  JsonDump.dumps (JObj [("b", JInt 2); ("a", JInt 1)])
  = JsonDump.object_text 0 [("a", JInt 1); ("b", JInt 2)].
Proof. reflexivity. Qed.

(** ** Insertion order at any depth *)

Lemma sorted_items_perm_eq {A : Type} (l1 l2 : list (string * A)) :
  dict_wf l1 -> Permutation l1 l2 ->
  JsonDump.sorted_items l1 = JsonDump.sorted_items l2.
Proof.
  intros Hwf Hp.
  assert (Hwf2 : dict_wf l2).
  { unfold dict_wf, dict_keys in *.
    eapply Permutation_NoDup; [|exact Hwf]. now apply Permutation_map. }
  apply sorted_unique; try now apply sorted_items_sorted.
  now rewrite !sorted_items_perm.
Qed.

Lemma iterencode_object (level : nat) (members : list (string * json)) :
  JsonDump.iterencode level (JObj members)
  = match members with
    | [] => "{}"%string
    | _ =>
        JsonDump.layout "{" "}" level
          (map JsonDump.member_text
             (JsonDump.sorted_items
                (map (fun kv =>
                        (fst kv, JsonDump.iterencode (S level) (snd kv)))
                   members)))
    end.
Proof. now destruct members. Qed.

Lemma iterencode_array (level : nat) (elems : list json) :
  JsonDump.iterencode level (JArr elems)
  = match elems with
    | [] => "[]"%string
    | _ =>
        JsonDump.layout "[" "]" level
          (map (JsonDump.iterencode (S level)) elems)
    end.
Proof. now destruct elems. Qed.

(** Values with the same content are written as the same text. *)
Lemma iterencode_same_content :
  forall a b : json,
    same_content a b -> json_wf a ->
    forall level, JsonDump.iterencode level a = JsonDump.iterencode level b.
Proof.
  fix IH 3. intros a b H Hwf level.
  destruct H as [|b0|n|r|s|l1 l2 HF|d1 d1' d2 HP HF]; try reflexivity.
  - assert (Hall : Forall json_wf l1) by (now inversion Hwf).
    clear Hwf.
    assert (Hmap : forall lv,
               map (JsonDump.iterencode lv) l1
               = map (JsonDump.iterencode lv) l2).
    { revert l1 l2 HF Hall. fix IHl 3. intros l1 l2 HF Hall lv.
      destruct HF as [|x y l1' l2' Hxy HF']; [reflexivity|].
      cbn [map]. f_equal.
      - apply IH; [exact Hxy | now inversion Hall].
      - apply IHl; [exact HF' | now inversion Hall]. }
    rewrite !iterencode_array, Hmap.
    destruct HF; reflexivity.
  - assert (Hkeys : dict_wf d1) by (now inversion Hwf).
    assert (Hall : Forall (fun kv => json_wf (snd kv)) d1')
      by (inversion Hwf; subst; eapply Permutation_Forall; eauto).
    clear Hwf.
    assert (Hmap : forall lv,
               map (fun kv => (fst kv, JsonDump.iterencode lv (snd kv))) d1'
               = map (fun kv => (fst kv, JsonDump.iterencode lv (snd kv))) d2).
    { clear HP Hkeys. revert d1' d2 HF Hall. fix IHl 3.
      intros d1' d2 HF Hall lv.
      destruct HF as [|x y l1' l2' Hxy HF']; [reflexivity|].
      cbn [map]. f_equal.
      - destruct Hxy as [Hk Hv]. f_equal; [exact Hk|].
        apply IH; [exact Hv | now inversion Hall].
      - apply IHl; [exact HF' | now inversion Hall]. }
    rewrite !iterencode_object.
    rewrite (sorted_items_perm_eq
               (map (fun kv =>
                       (fst kv, JsonDump.iterencode (S level) (snd kv))) d1)
               (map (fun kv =>
                       (fst kv, JsonDump.iterencode (S level) (snd kv))) d1')).
    + rewrite Hmap.
      destruct d1 as [|x1 r1].
      * apply Permutation_nil in HP. subst d1'.
        inversion HF. reflexivity.
      * destruct d2 as [|x2 r2]; [|reflexivity].
        inversion HF; subst.
        apply Permutation_sym, Permutation_nil in HP. discriminate.
    + unfold dict_wf, dict_keys in *. now rewrite map_map.
    + now apply Permutation_map.
Qed.

(** A value has the same content as itself. *)
Lemma same_content_refl : forall a : json, same_content a a.
Proof.
  fix IH 1. intros [| b | n | r | s | elems | members]; try constructor.
  - induction elems as [|x l IHl]; constructor; [apply IH | exact IHl].
  - apply SameObj with members; [reflexivity|].
    induction members as [|[k v] l IHl]; constructor; [|exact IHl].
    split; [reflexivity | apply IH].
Qed.

(** Dictionaries that map every key to the same value have the same
    content. *)
Lemma same_lookup_same_content (c1 c2 : pydict json) :
  dict_wf c1 -> dict_wf c2 ->
  (forall k, dict_get k c1 = dict_get k c2) ->
  same_content (JObj c1) (JObj c2).
Proof.
  intros H1 H2 Hget. apply SameObj with c2.
  - now apply dict_same_content_perm.
  - clear. induction c2 as [|[k v] l IHl]; constructor; [|exact IHl].
    split; [reflexivity | apply same_content_refl].
Qed.

(** The dump of a well-formed value depends on its content only. *)
Lemma dumps_same_content (a b : json) :
  json_wf a -> same_content a b -> JsonDump.dumps a = JsonDump.dumps b.
Proof. intros Hwf H. now apply iterencode_same_content. Qed.

Example dumps_nested_order :
  JsonDump.dumps
    (JObj [("jobB", JObj [("y", JInt 2); ("x", JInt 1)]); ("jobA", py_True)])
  = JsonDump.dumps
      (JObj [("jobA", py_True); ("jobB", JObj [("x", JInt 1); ("y", JInt 2)])]).
Proof. reflexivity. Qed.

(** Saving two caches that have the same content at every depth leaves the
    same files and the same outcome. *)
Lemma save_same_content (output_dir : string) (c1 c2 : pydict json)
  (w : world) :
  json_wf (JObj c1) -> same_content (JObj c1) (JObj c2) ->
  fst (save_completion_cache output_dir c1 w)
  = fst (save_completion_cache output_dir c2 w) /\
  files (snd (save_completion_cache output_dir c1 w))
  = files (snd (save_completion_cache output_dir c2 w)).
Proof.
  intros Hwf Hsame. rewrite !save_run.
  rewrite (dumps_same_content _ _ Hwf Hsame).
  destruct (faults w (cache_path output_dir)); split; reflexivity.
Qed.


(** * Further properties *)

(** ** Key normalisation *)

Lemma replace_app (old new : ascii) (s t : string) :
  PyStr.replace old new (s ++ t)%string
  = (PyStr.replace old new s ++ PyStr.replace old new t)%string.
Proof. induction s as [|a s IH]; simpl; [reflexivity | now rewrite IH]. Qed.

Lemma rfind_last (c : ascii) (s b : string) :
  PyStr.contains c b = false ->
  PyStr.rfind c (s ++ String c b)%string = Z.of_nat (String.length s).
Proof.
  intros Hb. induction s as [|a s IH].
  - simpl. apply rfind_absent in Hb. rewrite Hb. simpl.
    now rewrite Ascii.eqb_refl.
  - cbn [append String.length PyStr.rfind]. rewrite IH.
    destruct (0 <=? Z.of_nat (String.length s))%Z eqn:E; [lia|].
    apply Z.leb_gt in E. lia.
Qed.

Lemma slice_from_app (s t : string) :
  PyStr.slice_from (String.length s) (s ++ t)%string = t.
Proof. induction s as [|a s IH]; simpl; [now destruct t | exact IH]. Qed.

Lemma basename_after_slash (s b : string) :
  PyStr.contains slash b = false ->
  basename (s ++ String slash b)%string = b.
Proof.
  intros Hb. unfold basename. cbv zeta. rewrite (rfind_last slash s b Hb).
  replace (Z.to_nat (Z.of_nat (String.length s) + 1))
    with (S (String.length s)) by lia.
  change (S (String.length s)) with (String.length (String slash s)).
  clear Hb. induction s as [|a s IH]; [reflexivity|].
  cbn [append String.length PyStr.slice_from] in *. exact IH.
Qed.

Lemma endswith_split (c : ascii) (s : string) :
  PyStr.endswith c s = true ->
  exists pre, s = (pre ++ String c EmptyString)%string.
Proof.
  induction s as [|a s IH]; [discriminate|].
  destruct s as [|a' s'].
  - simpl. intros H. apply ascii_eqb_true in H. subst a.
    now exists EmptyString.
  - intros H. change (PyStr.endswith c (String a' s') = true) in H.
    destruct (IH H) as [pre Hpre]. exists (String a pre).
    simpl. now rewrite <- Hpre.
Qed.

Lemma append_assoc (s t u : string) :
  ((s ++ t) ++ u)%string = (s ++ (t ++ u))%string.
Proof. induction s as [|a s IH]; simpl; [reflexivity | now rewrite IH]. Qed.

(** X1.  The key of a job stored with a directory in front of it, written
    with either separator or built by [os.path.join], is normalised back to
    the job name, for every job name that holds no separator. *)
Theorem normalize_key_strips_directory (pre b : string) (c : ascii) :
  c = slash \/ c = backslash ->
  has_separator b = false ->
  normalize_key (pre ++ String c b)%string = b /\
  forall a, normalize_key (path_join a b) = b.
Proof.
  intros Hc Hb. unfold has_separator in Hb.
  apply orb_false_iff in Hb as [Hs Hbs].
  assert (Hfirst : forall p c', c' = slash \/ c' = backslash ->
                     normalize_key (p ++ String c' b)%string = b).
  { intros p c' Hc'. unfold normalize_key. rewrite replace_app.
    cbn [PyStr.replace]. rewrite (replace_absent _ _ _ Hbs).
    replace (if Ascii.eqb c' backslash then slash else c') with slash
      by (destruct Hc' as [->| ->]; reflexivity).
    now apply basename_after_slash. }
  split; [now apply Hfirst|].
  intros a. unfold path_join.
  assert (Hstart : PyStr.startswith slash b = false).
  { destruct b as [|x b']; [reflexivity|]. simpl in *.
    now apply orb_false_iff in Hs as [Hx _]. }
  rewrite Hstart.
  destruct (String.eqb a EmptyString) eqn:Ea; cbn [orb].
  - apply String.eqb_eq in Ea. subst a. cbn [append].
    apply normalize_key_plain. unfold has_separator. now rewrite Hs, Hbs.
  - destruct (PyStr.endswith slash a) eqn:Eend.
    + destruct (endswith_split _ _ Eend) as [p ->].
      rewrite append_assoc. cbn [append]. apply Hfirst. now left.
    + change (a ++ "/" ++ b)%string with (a ++ String slash b)%string.
      apply Hfirst. now left.
Qed.

Lemma normalize_key_strips_directory_witness :
  normalize_key "C:\Users\me\af2_output\jobA" = "jobA" /\
  normalize_key (path_join "/content/drive/MyDrive/af2_output" "jobA")
  = "jobA".
Proof.
  destruct (normalize_key_strips_directory "C:\Users\me\af2_output" "jobA"
              backslash (or_intror eq_refl) eq_refl) as [H1 H2].
  split; [exact H1 | apply H2].
Defined.

(** ** The normalisation loop, entry by entry *)

Section NormalizeFacts.
Context {V : Type}.

Lemma dict_set_absent (k : string) (v : V) (d : pydict V) :
  ~ In k (dict_keys d) -> dict_set k v d = (d ++ [(k, v)])%list.
Proof.
  induction d as [|[k' v'] d IH]; simpl; [reflexivity|].
  intros H. destruct (String.eqb k' k) eqn:E.
  - apply String.eqb_eq in E. tauto.
  - rewrite IH; tauto.
Qed.

Lemma dict_set_length (k : string) (v : V) (d : pydict V) :
  dict_len (dict_set k v d) <= S (dict_len d).
Proof.
  unfold dict_len. induction d as [|[k' v'] d IH]; simpl; [lia|].
  destruct (String.eqb k' k); simpl; lia.
Qed.

Lemma normalize_fold_length (l : list (string * V)) :
  forall acc : pydict V,
    dict_len (fold_left normalize_step l acc) <= dict_len acc + List.length l.
Proof.
  induction l as [|[k v] l IH]; intros acc; simpl; [lia|].
  specialize (IH (dict_set (normalize_key k) v acc)).
  pose proof (dict_set_length (normalize_key k) v acc). lia.
Qed.

Lemma normalize_fold_distinct (l : list (string * V)) :
  forall acc : pydict V,
    NoDup (dict_keys acc ++ map normalize_key (dict_keys l)) ->
    fold_left normalize_step l acc = (acc ++ map rename_key l)%list.
Proof.
  induction l as [|[k v] l IH]; intros acc Hnd; simpl.
  - now rewrite app_nil_r.
  - simpl in Hnd.
    assert (Hk : ~ In (normalize_key k) (dict_keys acc)).
    { intros Hin. apply NoDup_remove_2 in Hnd. apply Hnd.
      apply in_or_app. now left. }
    rewrite (dict_set_absent _ _ _ Hk), IH.
    + rewrite <- app_assoc. reflexivity.
    + unfold dict_keys at 1. rewrite map_app, <- app_assoc. exact Hnd.
Qed.

End NormalizeFacts.

(** Without collisions the loop renames the entries one by one. *)
Lemma normalize_cache_distinct {V : Type} (raw : pydict V) :
  NoDup (map normalize_key (dict_keys raw)) ->
  normalize_cache raw = map rename_key raw.
Proof.
  intros Hnd. unfold normalize_cache, dict_items.
  now rewrite normalize_fold_distinct.
Qed.

(** X2.  Normalising never adds entries; and when no two raw keys have the
    same normal form, it renames the entries one by one, keeping their order
    and their values. *)
Theorem normalize_cache_entry_by_entry {V : Type} (raw : pydict V) :
  dict_len (normalize_cache raw) <= dict_len raw /\
  (NoDup (map normalize_key (dict_keys raw)) ->
   normalize_cache raw = map rename_key raw).
Proof.
  split.
  - apply (normalize_fold_length raw []).
  - apply normalize_cache_distinct.
Qed.

Lemma normalize_cache_entry_by_entry_witness :
  normalize_cache [("out/jobB", py_True); ("old\jobA", JBool false)]
  = [("jobB", py_True); ("jobA", JBool false)].
Proof.
  apply (normalize_cache_entry_by_entry
           [("out/jobB", py_True); ("old\jobA", JBool false)]).
  repeat constructor; simpl; intuition discriminate.
Defined.

Lemma rename_key_clean {V : Type} (d : pydict V) :
  (forall k, In k (dict_keys d) -> has_separator k = false) ->
  map rename_key d = d /\ map normalize_key (dict_keys d) = dict_keys d.
Proof.
  induction d as [|[k v] d IH]; intros Hclean; simpl; [auto|].
  destruct IH as [IH1 IH2]; [intros k' Hk'; apply Hclean; now right|].
  unfold rename_key at 1. simpl.
  rewrite (normalize_key_plain k) by (apply Hclean; now left).
  now rewrite IH1, IH2.
Qed.

(** X3.  Normalising is idempotent: a cache that [load_completion_cache]
    has normalised is left as it is, order and values included, when it is
    normalised again. *)
Theorem normalize_cache_idempotent {V : Type} (raw : pydict V) :
  normalize_cache (normalize_cache raw) = normalize_cache raw.
Proof.
  assert (Hclean : forall k, In k (dict_keys (normalize_cache raw)) ->
                             has_separator k = false).
  { intros k Hk. apply normalize_cache_keys in Hk as (k0 & _ & <-).
    apply normalize_key_no_separator. }
  destruct (rename_key_clean _ Hclean) as [Hmap Hkeys].
  rewrite normalize_cache_distinct, Hmap; [reflexivity|].
  rewrite Hkeys. apply normalize_cache_wf.
Qed.

(** ** The merge, entry by entry *)

Lemma new_entries_snoc {V : Type} (m l : pydict V) (j : string) (s : V) :
  ~ In j (dict_keys l) ->
  new_entries (m ++ [(j, s)])%list l = new_entries m l.
Proof.
  intros Hj. unfold new_entries. apply filter_ext_in.
  intros [k v] Hin. cbn [fst]. f_equal.
  assert (Hne : j <> k).
  { intros ->. apply Hj. now apply (in_map fst) in Hin. }
  unfold dict_contains.
  destruct (in_dec string_dec j (dict_keys m)) as [Hm|Hm].
  - rewrite <- (dict_get_set_other j k s m Hne).
    assert (Hkeys : forall x, In x (dict_keys (m ++ [(j, s)])%list) <->
                              In x (dict_keys (dict_set j s m))).
    { intros x. rewrite dict_keys_set. unfold dict_keys. rewrite map_app.
      rewrite in_app_iff. simpl. split.
      - intros [H|[<-|[]]]; auto.
      - intros [->|H]; auto. }
    destruct (dict_get k (m ++ [(j, s)])%list) as [v1|] eqn:E1,
             (dict_get k (dict_set j s m)) as [v2|] eqn:E2; try reflexivity.
    + exfalso. assert (Hin1 : In k (dict_keys (m ++ [(j, s)])%list))
        by (apply dict_get_keys; eauto).
      apply Hkeys, dict_get_keys in Hin1 as [v' Hv']. congruence.
    + exfalso. assert (Hin2 : In k (dict_keys (dict_set j s m)))
        by (apply dict_get_keys; eauto).
      apply Hkeys, dict_get_keys in Hin2 as [v' Hv']. congruence.
  - rewrite <- (dict_set_absent j s m Hm).
    now rewrite (dict_get_set_other j k s m Hne).
Qed.

Lemma merge_fold_structure {V : Type} (l : pydict V) :
  forall (m : pydict V) (a p : nat),
    dict_wf l ->
    fold_left merge_step l (m, a, p)
    = ((m ++ new_entries m l)%list,
       a + List.length (new_entries m l),
       p + (List.length l - List.length (new_entries m l))).
Proof.
  induction l as [|[j s] l IH]; intros m a p Hwf.
  - cbn. rewrite app_nil_r.
    apply f_equal2; [apply f_equal2|]; try reflexivity; lia.
  - inversion Hwf as [|? ? Hj Hl]; subst.
    cbn [fold_left merge_step]. unfold new_entries at 1 2 3.
    cbn [filter fst].
    fold (new_entries m l).
    pose proof (filter_length_le
                  (fun kv => negb (dict_contains (fst kv) m)) l) as Hle.
    fold (new_entries m l) in Hle.
    destruct (dict_contains j m) eqn:Hc; cbn [negb].
    + rewrite (IH m a (p + 1) Hl).
      apply f_equal2; try reflexivity. cbn [List.length]. lia.
    + assert (Hm : ~ In j (dict_keys m)).
      { intros Hin. apply dict_contains_keys in Hin. congruence. }
      rewrite (dict_set_absent j s m Hm), (IH _ (a + 1) p Hl).
      rewrite (new_entries_snoc m l j s Hj), <- app_assoc.
      cbn [app List.length].
      apply f_equal2; [apply f_equal2|]; try reflexivity; lia.
Qed.

(** X4.  When the discovered entries have pairwise distinct names, the
    merged cache is the existing cache, in its order, followed by the
    discovered entries that are new, in scan order; [added] counts these and
    [already_exists] counts the others.  On an empty existing cache the merge
    returns the discovered entries themselves. *)
Theorem merge_caches_appends_new {V : Type} (E D : pydict V) :
  dict_wf D ->
  merge_caches E D
  = ((E ++ new_entries E D)%list,
     List.length (new_entries E D),
     dict_len D - List.length (new_entries E D)) /\
  merge_caches [] D = (D, dict_len D, 0).
Proof.
  intros Hwf. unfold merge_caches, dict_copy, dict_items. split.
  - now rewrite merge_fold_structure.
  - rewrite merge_fold_structure by exact Hwf.
    assert (Hall : new_entries [] D = D).
    { unfold new_entries. clear. induction D as [|x D IH]; [reflexivity|].
      cbn [filter]. change (dict_contains (fst x) (@nil (string * V)))
        with false. cbn [negb]. f_equal. exact IH. }
    rewrite Hall. unfold dict_len. cbn [app].
    apply f_equal2; try reflexivity. lia.
Qed.

Lemma merge_caches_appends_new_witness :
  merge_caches [("jobB", JStr "kept"); ("jobA", py_True)]
    [("jobC", py_True); ("jobA", py_True); ("jobD", py_True)]
  = ([("jobB", JStr "kept"); ("jobA", py_True);
      ("jobC", py_True); ("jobD", py_True)], 2, 1).
Proof.
  apply (merge_caches_appends_new
           [("jobB", JStr "kept"); ("jobA", py_True)]
           [("jobC", py_True); ("jobA", py_True); ("jobD", py_True)]).
  repeat constructor; simpl; intuition discriminate.
Defined.

(** ** What the scan records *)

Lemma completed_fold (l : list dir_entry) :
  forall acc : pydict json,
    (forall k, In k (dict_keys (fold_left completed_step l acc)) <->
               In k (dict_keys acc) \/
               exists e, In e l /\ has_done_files e = true /\
                         entry_name e = k) /\
    ((forall k v, dict_get k acc = Some v -> v = py_True) ->
     forall k v, dict_get k (fold_left completed_step l acc) = Some v ->
                 v = py_True) /\
    (dict_wf acc -> dict_wf (fold_left completed_step l acc)).
Proof.
  induction l as [|e l IH]; intros acc.
  - cbn [fold_left]. split; [|split; auto].
    intros k. split; [tauto | intros [H|(e & [] & _)]; exact H].
  - cbn [fold_left]. destruct (IH (completed_step acc e)) as (Hk & Hv & Hw).
    assert (He : has_done_files e = false /\ completed_step acc e = acc \/
                 has_done_files e = true /\
                 completed_step acc e = dict_set (entry_name e) py_True acc).
    { unfold has_done_files, completed_step.
      destruct (entry_done_files e); auto. }
    destruct He as [[Hdone Hstep]|[Hdone Hstep]];
      rewrite Hstep in Hk, Hv, Hw |- *.
    + split; [|split; auto]. intros k. rewrite Hk. split.
      * intros [H|(e' & Hin & Hd & Hn)]; [now left|].
        right. exists e'. split; [now right | auto].
      * intros [H|(e' & [<-|Hin] & Hd & Hn)]; [now left | congruence | ].
        right. exists e'. auto.
    + split; [|split].
      * intros k. rewrite Hk, dict_keys_set. split.
        -- intros [[->|H]|(e' & Hin & Hd & Hn)].
           ++ right. exists e. split; [now left | auto].
           ++ now left.
           ++ right. exists e'. split; [now right | auto].
        -- intros [H|(e' & [<-|Hin] & Hd & Hn)].
           ++ left. now right.
           ++ left. left. now symmetry.
           ++ right. exists e'. auto.
      * intros Hacc. apply Hv. intros k v.
        destruct (string_dec (entry_name e) k) as [<-|Hne].
        -- rewrite dict_get_set_same. congruence.
        -- rewrite dict_get_set_other by exact Hne. apply Hacc.
      * intros Hacc. apply Hw. now apply dict_set_wf.
Qed.

Lemma completed_jobs_of_spec (entries : list dir_entry) :
  (forall k, In k (dict_keys (completed_jobs_of entries)) <->
             exists e, In e entries /\ is_completed_job e = true /\
                       entry_name e = k) /\
  (forall k, In k (dict_keys (completed_jobs_of entries)) ->
             dict_get k (completed_jobs_of entries) = Some py_True) /\
  dict_wf (completed_jobs_of entries).
Proof.
  destruct (completed_fold (filter is_job_dir entries) []) as (Hk & Hv & Hw).
  fold (completed_jobs_of entries) in Hk, Hv, Hw.
  split; [|split].
  - intros k. rewrite Hk. cbn [dict_keys map In]. split.
    + intros [[]|(e & Hin & Hdone & Hn)].
      apply filter_In in Hin as [Hin Hjob].
      exists e. unfold is_completed_job. now rewrite Hjob, Hdone.
    + intros (e & Hin & Hc & Hn). right. exists e.
      unfold is_completed_job in Hc. apply andb_true_iff in Hc as [Hjob Hdone].
      split; [apply filter_In; auto | auto].
  - intros k Hin. apply dict_get_keys in Hin as [v Hget].
    rewrite Hget. f_equal. apply (Hv ltac:(discriminate) k v Hget).
  - apply Hw. constructor.
Qed.

(** X5.  For an output directory that can be listed, the scan returns a
    dictionary whose keys are exactly the names of the entries that are
    directories, do not start with a dot and hold a marker file; every value
    is [True], no key is repeated, and nothing but the console and the call
    log is touched. *)
Theorem find_completed_jobs_result (output_dir : string) (w : world)
  (entries : list dir_entry) :
  dirs w output_dir = DirEntries entries ->
  let completed := completed_jobs_of entries in
  (exists lines,
      find_completed_jobs output_dir w
      = (Return completed, logged w lines [CallFind output_dir])) /\
  (forall k, In k (dict_keys completed) <->
             exists e, In e entries /\ is_completed_job e = true /\
                       entry_name e = k) /\
  (forall k, In k (dict_keys completed) ->
             dict_get k completed = Some py_True) /\
  dict_wf completed.
Proof.
  intros Hd completed. split; [now apply find_listing|].
  apply completed_jobs_of_spec.
Qed.

Lemma find_completed_jobs_result_witness :
  dict_get "jobA" (completed_jobs_of sample_entries) = Some py_True /\
  ~ In "jobB" (dict_keys (completed_jobs_of sample_entries)).
Proof.
  destruct (find_completed_jobs_result "out"
              (sample_world (DirEntries sample_entries) FileMissing NoFault)
              sample_entries eq_refl) as (_ & Hk & Hv & _).
  split.
  - apply Hv, Hk. eexists. split; [left; reflexivity | split; reflexivity].
  - intros Hin. apply Hk in Hin as (e & Hin & Hc & Hn).
    destruct Hin as [<-|[<-|[<-|[]]]]; discriminate.
Defined.

(** X6.  A path that does not exist and a path that cannot be listed end the
    scan with different lines: the first names the directory, the second
    carries the message of the exception; both exit with status 1. *)
Theorem find_completed_jobs_errors (output_dir : string) (w : world) :
  (path_exists w output_dir = false ->
   find_completed_jobs output_dir w
   = (Exit 1%Z,
      logged w [missing_dir_line output_dir] [CallFind output_dir])) /\
  (forall e, dirs w output_dir = DirUnlistable e ->
   find_completed_jobs output_dir w
   = (Exit 1%Z, logged w [scan_error_line e] [CallFind output_dir])).
Proof.
  split.
  - intros He. unfold find_completed_jobs.
    rewrite bind_record_call, bind_os_path_exists, path_exists_logged, He.
    cbn [negb]. rewrite bind_print, logged_logged. reflexivity.
  - intros e Hd.
    assert (He : path_exists w output_dir = true).
    { unfold path_exists. now rewrite Hd. }
    unfold find_completed_jobs.
    rewrite bind_record_call, bind_os_path_exists, path_exists_logged, He.
    cbn [negb]. apply bind_exit. erewrite try_raise.
    2: { apply bind_raise. unfold os_scandir. cbn [dirs logged].
         rewrite Hd. reflexivity. }
    rewrite bind_print, logged_logged. reflexivity.
Qed.

Lemma find_completed_jobs_errors_witness :
  find_completed_jobs "out" (sample_world DirMissing FileMissing NoFault)
  = (Exit 1%Z,
     logged (sample_world DirMissing FileMissing NoFault)
       [missing_dir_line "out"] [CallFind "out"]) /\
  find_completed_jobs "out"
    (sample_world (DirUnlistable "[Errno 13] Permission denied: 'out'")
       FileMissing NoFault)
  = (Exit 1%Z,
     logged
       (sample_world (DirUnlistable "[Errno 13] Permission denied: 'out'")
          FileMissing NoFault)
       [scan_error_line "[Errno 13] Permission denied: 'out'"]
       [CallFind "out"]).
Proof.
  split.
  - apply (find_completed_jobs_errors "out"
             (sample_world DirMissing FileMissing NoFault)). reflexivity.
  - apply (find_completed_jobs_errors "out"
             (sample_world (DirUnlistable "[Errno 13] Permission denied: 'out'")
                FileMissing NoFault)). reflexivity.
Defined.

(** ** What load does with a file it cannot use *)

(** X7.  A cache file that exists but cannot be read, and a cache file whose
    text decodes to a value that is not an object, are both answered with one
    warning and the empty cache: the first warning carries the error of the
    read, the second the name of the type that has no [items]. *)
Theorem load_warns_on_unusable_file (json_loads : string -> string + json)
  (output_dir : string) (w : world) :
  (forall e, files w (cache_path output_dir) = FileUnreadable e ->
   load_completion_cache json_loads output_dir w
   = (Return [], logged w [load_warning e] [CallLoad output_dir])) /\
  (forall text v,
      files w (cache_path output_dir) = FileText text ->
      json_loads text = inr v ->
      (forall raw, v <> JObj raw) ->
      load_completion_cache json_loads output_dir w
      = (Return [],
         logged w [load_warning (items_error v)] [CallLoad output_dir])).
Proof.
  split.
  - intros e Hf.
    assert (He : path_exists w (cache_path output_dir) = true)
      by (apply path_exists_file; congruence).
    unfold load_completion_cache. rewrite bind_record_call.
    fold (cache_path output_dir).
    rewrite bind_os_path_exists, path_exists_logged, He.
    erewrite try_raise.
    2: { apply bind_raise. unfold json_load_file. apply bind_raise.
         unfold read_text. cbn [files logged]. rewrite Hf. reflexivity. }
    rewrite bind_print, logged_logged. reflexivity.
  - intros text v Hf Hj Hv.
    assert (He : path_exists w (cache_path output_dir) = true)
      by (apply path_exists_file; congruence).
    unfold load_completion_cache. rewrite bind_record_call.
    fold (cache_path output_dir).
    rewrite bind_os_path_exists, path_exists_logged, He.
    erewrite try_raise.
    2: { erewrite bind_return.
         2: { unfold json_load_file. erewrite bind_return.
              2: { unfold read_text. cbn [files logged]. rewrite Hf.
                   reflexivity. }
              rewrite Hj. reflexivity. }
         apply bind_raise.
         destruct v; try reflexivity. exfalso. now apply (Hv members). }
    rewrite bind_print, logged_logged. reflexivity.
Qed.

Lemma load_warns_on_unusable_file_witness :
  load_completion_cache sample_loads "out"
    (sample_world DirMissing (FileText "array") NoFault)
  = (Return [],
     logged (sample_world DirMissing (FileText "array") NoFault)
       [load_warning "'list' object has no attribute 'items'"]
       [CallLoad "out"]).
Proof.
  apply (proj2 (load_warns_on_unusable_file sample_loads "out"
                  (sample_world DirMissing (FileText "array") NoFault))
           "array" (JArr [JInt 1]) eq_refl eq_refl).
  intros raw. discriminate.
Defined.

(** ** What save leaves behind *)

(** X8.  [save_completion_cache] touches no path but the cache file.  When
    the file cannot be opened nothing changes at all; when the write fails
    after the file was opened, the cache file is left holding only the part
    of the dump that was written. *)
Theorem save_touches_only_cache_file (output_dir : string)
  (cache : pydict json) (w : world) :
  let w' := snd (save_completion_cache output_dir cache w) in
  dirs w' = dirs w /\
  faults w' = faults w /\
  (forall q, q <> cache_path output_dir -> files w' q = files w q) /\
  (forall e, faults w (cache_path output_dir) = OpenRaises e ->
             files w' = files w) /\
  (forall written e,
      faults w (cache_path output_dir) = WriteRaises written e ->
      files w' (cache_path output_dir)
      = FileText
          (String.substring 0 written (JsonDump.dumps (JObj cache)))).
Proof.
  intros w'. subst w'. rewrite save_run.
  destruct (faults w (cache_path output_dir)) as [|e|n e] eqn:Hfault;
    cbn [snd dirs faults files logged set_file].
  - repeat split; try discriminate.
    intros q Hq. apply String.eqb_neq in Hq. now rewrite Hq.
  - repeat split; discriminate.
  - repeat split; try discriminate.
    + intros q Hq. apply String.eqb_neq in Hq. now rewrite Hq.
    + intros n' e' H. injection H as <- <-. now rewrite String.eqb_refl.
Qed.

Lemma save_touches_only_cache_file_witness :
  files
    (snd (save_completion_cache "out" [("jobA", py_True)]
            (sample_world (DirEntries []) (FileText "paths")
               (WriteRaises 1 "[Errno 28] No space left on device"))))
    "out/.completion_cache.json"
  = FileText "{".
Proof.
  destruct (save_touches_only_cache_file "out" [("jobA", py_True)]
              (sample_world (DirEntries []) (FileText "paths")
                 (WriteRaises 1 "[Errno 28] No space left on device")))
    as (_ & _ & _ & _ & H).
  exact (H 1 "[Errno 28] No space left on device" eq_refl).
Defined.

(** ** More on the whole run *)

(** X9.  With any number of arguments other than one, the run prints the
    usage text and exits with status 1 before it calls a function or touches
    a file. *)
Theorem run_usage_error (json_loads : string -> string + json)
  (argv : list string) (w : world) :
  List.length argv <> 2 ->
  run json_loads argv w = (1%Z, logged w usage_lines []).
Proof.
  intros Hn. unfold run, main.
  destruct (Nat.eqb (List.length argv) 2) eqn:E.
  - apply Nat.eqb_eq in E. contradiction.
  - cbn [negb]. rewrite !bind_print, !logged_logged. reflexivity.
Qed.

Lemma run_usage_error_witness :
  run sample_loads ["migrate_done_to_cache.py"; "out"; "extra"]
    (sample_world (DirEntries sample_entries) (FileText "paths") NoFault)
  = (1%Z,
     logged
       (sample_world (DirEntries sample_entries) (FileText "paths") NoFault)
       usage_lines []).
Proof.
  apply (run_usage_error sample_loads
           ["migrate_done_to_cache.py"; "out"; "extra"]).
  simpl. lia.
Defined.

Lemma loaded_cache_wf (json_loads : string -> string + json)
  (output_dir : string) (w : world) :
  dict_wf (loaded_cache json_loads output_dir w).
Proof.
  destruct (loaded_cache_cases json_loads output_dir w)
    as [H|(text & raw & _ & _ & H)]; rewrite H.
  - constructor.
  - apply normalize_cache_wf.
Qed.

Lemma loaded_cache_clean (json_loads : string -> string + json)
  (output_dir : string) (w : world) (k : string) :
  In k (dict_keys (loaded_cache json_loads output_dir w)) ->
  has_separator k = false.
Proof.
  destruct (loaded_cache_cases json_loads output_dir w)
    as [H|(text & raw & _ & _ & H)]; rewrite H.
  - intros [].
  - intros Hk. apply normalize_cache_keys in Hk as (k0 & _ & <-).
    apply normalize_key_no_separator.
Qed.

(** What is loaded depends on the cache file only. *)
Lemma loaded_cache_files (json_loads : string -> string + json)
  (output_dir : string) (w1 w2 : world) :
  files w1 (cache_path output_dir) = files w2 (cache_path output_dir) ->
  loaded_cache json_loads output_dir w1
  = loaded_cache json_loads output_dir w2.
Proof.
  intros Hf.
  destruct (loaded_cache_cases json_loads output_dir w1)
    as [H1|(text & raw & Hf1 & Hj & H1)];
  destruct (loaded_cache_cases json_loads output_dir w2)
    as [H2|(text' & raw' & Hf2 & Hj' & H2)].
  - congruence.
  - rewrite <- Hf in Hf2.
    rewrite (loaded_cache_object _ _ _ _ _ Hf2 Hj'), H2. reflexivity.
  - rewrite Hf in Hf1.
    rewrite (loaded_cache_object _ _ _ _ _ Hf1 Hj), H1. reflexivity.
  - rewrite H1, H2. congruence.
Qed.

(** The value the merged cache gives a key. *)
Lemma merged_get {V : Type} (E D : pydict V) (k : string) :
  dict_get k (fst (fst (merge_caches E D)))
  = match dict_get k E with
    | Some v => Some v
    | None => dict_get k D
    end.
Proof.
  destruct (merge_caches E D) as [[M a] p] eqn:HM.
  apply merge_fold in HM as (Hget & _ & _). cbn [fst]. apply Hget.
Qed.

Lemma merged_keys {V : Type} (E D : pydict V) (k : string) :
  In k (dict_keys (fst (fst (merge_caches E D)))) <->
  In k (dict_keys E) \/ In k (dict_keys D).
Proof.
  rewrite (dict_get_keys k (fst (fst (merge_caches E D)))),
    (dict_get_keys k E), (dict_get_keys k D), merged_get.
  destruct (dict_get k E) as [v|]; split; eauto.
  intros [[v' H]|H]; [discriminate | exact H].
Qed.

(** Where the keys of the merged cache come from. *)
Lemma merged_keys_origin (json_loads : string -> string + json)
  (output_dir : string) (w : world) (entries : list dir_entry) (k : string) :
  In k (dict_keys
          (fst (fst (merge_caches (loaded_cache json_loads output_dir w)
                       (completed_jobs_of entries))))) ->
  has_separator k = false \/
  exists e, In e entries /\ is_completed_job e = true /\ entry_name e = k.
Proof.
  destruct (completed_jobs_of_spec entries) as (Hk & _ & _).
  intros Hin. apply merged_keys in Hin as [Hin|Hin].
  - left. now apply loaded_cache_clean in Hin.
  - right. now apply Hk.
Qed.

Lemma merged_keys_clean (json_loads : string -> string + json)
  (output_dir : string) (w : world) (entries : list dir_entry) :
  (forall e, In e entries -> is_completed_job e = true ->
             has_separator (entry_name e) = false) ->
  forall k,
    In k (dict_keys
            (fst (fst (merge_caches (loaded_cache json_loads output_dir w)
                         (completed_jobs_of entries))))) ->
    has_separator k = false.
Proof.
  intros Hclean k Hin.
  destruct (merged_keys_origin _ _ _ _ _ Hin) as [H|(e & He & Hc & <-)];
    [exact H | now apply Hclean].
Qed.

(** X10.  The cache the run saves has no repeated key, and each of its keys
    either holds no separator or is, as it stands, the name of a scanned job
    directory: names from the scan are stored without being normalised.  So
    the saved keys are free of separators when the scanned names are. *)
Theorem merged_cache_keys (json_loads : string -> string + json)
  (output_dir : string) (w : world) (entries : list dir_entry) :
  let existing := loaded_cache json_loads output_dir w in
  let completed := completed_jobs_of entries in
  let merged := fst (fst (merge_caches existing completed)) in
  dict_wf merged /\
  (forall k, In k (dict_keys merged) ->
             has_separator k = false \/
             exists e, In e entries /\ is_completed_job e = true /\
                       entry_name e = k) /\
  ((forall e, In e entries -> is_completed_job e = true ->
              has_separator (entry_name e) = false) ->
   forall k, In k (dict_keys merged) -> has_separator k = false).
Proof.
  intros existing completed merged. split; [|split].
  - apply merge_caches_wf, loaded_cache_wf.
  - apply merged_keys_origin.
  - apply merged_keys_clean.
Qed.

Lemma merged_cache_keys_witness :
  has_separator "jobA" = false.
Proof.
  apply (proj2 (proj2
    (merged_cache_keys sample_loads "out"
       (sample_world (DirEntries sample_entries)
          (FileText "scenario B") NoFault) sample_entries))).
  - intros e [<-|[<-|[<-|[]]]]; (reflexivity || discriminate).
  - left. reflexivity.
Defined.

(** X11.  A run over a listable directory whose save succeeds ends with
    status 0 and leaves, in the cache file, the dump of the loaded cache
    merged with the scan; no other file is touched, and the three functions
    are called once each, load first, then the scan, then save. *)
Theorem run_persists_merged_cache (json_loads : string -> string + json)
  (prog_name output_dir : string) (w : world) (entries : list dir_entry) :
  dirs w output_dir = DirEntries entries ->
  faults w (cache_path output_dir) = NoFault ->
  let existing := loaded_cache json_loads output_dir w in
  let completed := completed_jobs_of entries in
  let merged := fst (fst (merge_caches existing completed)) in
  dict_truthy existing || dict_truthy completed = true ->
  let result := run json_loads [prog_name; output_dir] w in
  fst result = 0%Z /\
  files (snd result) (cache_path output_dir)
  = FileText (JsonDump.dumps (JObj merged)) /\
  (forall q, q <> cache_path output_dir ->
             files (snd result) q = files w q) /\
  calls (snd result)
  = calls w ++ [CallLoad output_dir; CallFind output_dir;
                CallSave output_dir merged].
Proof.
  intros Hd Hfault existing completed merged Hne result.
  pose proof (main_listing json_loads prog_name output_dir w entries Hd)
    as Hmain.
  cbv zeta in Hmain. fold existing completed merged in Hmain.
  rewrite Hne, Hfault in Hmain. destruct Hmain as (lines & Hmain).
  subst result. unfold run. rewrite Hmain.
  cbn [fst snd files calls logged set_file].
  rewrite String.eqb_refl. repeat split.
  intros q Hq. apply String.eqb_neq in Hq. now rewrite Hq.
Qed.

Lemma run_persists_merged_cache_witness :
  files
    (snd (run sample_loads ["migrate_done_to_cache.py"; "out"]
            (sample_world (DirEntries sample_entries)
               (FileText "scenario B") NoFault)))
    "out/.completion_cache.json"
  = FileText (JsonDump.dumps (JObj [("jobA", py_True)])).
Proof.
  exact (proj1 (proj2
    (run_persists_merged_cache sample_loads "migrate_done_to_cache.py" "out"
       (sample_world (DirEntries sample_entries)
          (FileText "scenario B") NoFault)
       sample_entries eq_refl eq_refl eq_refl))).
Defined.

(** X12.  When there is something to save and the write cannot complete,
    the run exits with status 1 after the call of save, which is its last
    call; a file that could not even be opened is left as it was. *)
Theorem run_exits_on_write_failure (json_loads : string -> string + json)
  (prog_name output_dir : string) (w : world) (entries : list dir_entry) :
  dirs w output_dir = DirEntries entries ->
  faults w (cache_path output_dir) <> NoFault ->
  let existing := loaded_cache json_loads output_dir w in
  let completed := completed_jobs_of entries in
  let merged := fst (fst (merge_caches existing completed)) in
  dict_truthy existing || dict_truthy completed = true ->
  let result := run json_loads [prog_name; output_dir] w in
  fst result = 1%Z /\
  calls (snd result)
  = calls w ++ [CallLoad output_dir; CallFind output_dir;
                CallSave output_dir merged] /\
  (forall e, faults w (cache_path output_dir) = OpenRaises e ->
             files (snd result) = files w).
Proof.
  intros Hd Hfault existing completed merged Hne result.
  pose proof (main_listing json_loads prog_name output_dir w entries Hd)
    as Hmain.
  cbv zeta in Hmain. fold existing completed merged in Hmain.
  rewrite Hne in Hmain. subst result. unfold run.
  destruct (faults w (cache_path output_dir)) as [|e|n e] eqn:Hf;
    [congruence| |];
    destruct Hmain as (w' & -> & Hcs & _ & Hfs); cbn [fst snd];
    repeat split; auto.
Qed.

Lemma run_exits_on_write_failure_witness :
  fst (run sample_loads ["migrate_done_to_cache.py"; "out"]
         (sample_world (DirEntries sample_entries) FileMissing
            (OpenRaises "[Errno 13] Permission denied")))
  = 1%Z.
Proof.
  refine (proj1
    (run_exits_on_write_failure sample_loads "migrate_done_to_cache.py" "out"
       (sample_world (DirEntries sample_entries) FileMissing
          (OpenRaises "[Errno 13] Permission denied"))
       sample_entries eq_refl _ eq_refl)).
  discriminate.
Defined.


(** ** The order of the scan, and a second run *)

Lemma dict_truthy_keys {V : Type} (d : pydict V) :
  dict_truthy d = true <-> exists k, In k (dict_keys d).
Proof.
  destruct d as [|[k v] d]; simpl.
  - split; [discriminate | intros [k []]].
  - split; eauto.
Qed.

Lemma dict_truthy_same_keys {V : Type} (d1 d2 : pydict V) :
  (forall k, In k (dict_keys d1) <-> In k (dict_keys d2)) ->
  dict_truthy d1 = dict_truthy d2.
Proof.
  intros H.
  destruct (dict_truthy d1) eqn:E1, (dict_truthy d2) eqn:E2; try reflexivity.
  - apply dict_truthy_keys in E1 as [k Hk]. apply H in Hk.
    assert (dict_truthy d2 = true) by (apply dict_truthy_keys; eauto).
    congruence.
  - apply dict_truthy_keys in E2 as [k Hk]. apply H in Hk.
    assert (dict_truthy d1 = true) by (apply dict_truthy_keys; eauto).
    congruence.
Qed.

Lemma dict_get_none {V : Type} (d : pydict V) (k : string) :
  ~ In k (dict_keys d) -> dict_get k d = None.
Proof.
  intros H. destruct (dict_get k d) as [v|] eqn:E; [|reflexivity].
  exfalso. apply H, dict_get_keys. eauto.
Qed.

Lemma completed_jobs_of_perm (e1 e2 : list dir_entry) :
  Permutation e1 e2 ->
  (forall k, In k (dict_keys (completed_jobs_of e1)) <->
             In k (dict_keys (completed_jobs_of e2))) /\
  (forall k, dict_get k (completed_jobs_of e1)
             = dict_get k (completed_jobs_of e2)).
Proof.
  intros Hp.
  destruct (completed_jobs_of_spec e1) as (Hk1 & Hv1 & _).
  destruct (completed_jobs_of_spec e2) as (Hk2 & Hv2 & _).
  assert (Hkeys : forall k, In k (dict_keys (completed_jobs_of e1)) <->
                            In k (dict_keys (completed_jobs_of e2))).
  { intros k. rewrite Hk1, Hk2. split; intros (e & Hin & H); exists e;
      (split; [|exact H]).
    - now apply (Permutation_in _ Hp).
    - now apply (Permutation_in _ (Permutation_sym Hp)). }
  split; [exact Hkeys|]. intros k.
  destruct (in_dec string_dec k (dict_keys (completed_jobs_of e1)))
    as [Hin|Hout].
  - rewrite (Hv1 k Hin). symmetry. apply Hv2. now apply Hkeys.
  - rewrite (dict_get_none _ _ Hout). symmetry. apply dict_get_none.
    intros Hin. apply Hout. now apply Hkeys.
Qed.

(** X14.  The order in which the directory is listed does not show in the
    result: two runs that differ only in that order end with the same status
    and leave the same files. *)
Theorem run_scan_order_independent (json_loads : string -> string + json)
  (prog_name output_dir : string) (w1 w2 : world)
  (entries1 entries2 : list dir_entry) :
  dirs w1 output_dir = DirEntries entries1 ->
  dirs w2 output_dir = DirEntries entries2 ->
  Permutation entries1 entries2 ->
  files w1 = files w2 ->
  faults w1 (cache_path output_dir) = NoFault ->
  faults w2 (cache_path output_dir) = NoFault ->
  let result1 := run json_loads [prog_name; output_dir] w1 in
  let result2 := run json_loads [prog_name; output_dir] w2 in
  fst result1 = fst result2 /\
  forall q, files (snd result1) q = files (snd result2) q.
Proof.
  intros Hd1 Hd2 Hp Hfiles Hf1 Hf2 result1 result2.
  pose proof (main_listing json_loads prog_name output_dir w1 entries1 Hd1)
    as Hm1.
  pose proof (main_listing json_loads prog_name output_dir w2 entries2 Hd2)
    as Hm2.
  cbv zeta in Hm1, Hm2. rewrite Hf1 in Hm1. rewrite Hf2 in Hm2.
  assert (Hex : loaded_cache json_loads output_dir w1
                = loaded_cache json_loads output_dir w2).
  { apply loaded_cache_files. now rewrite Hfiles. }
  rewrite Hex in Hm1.
  destruct (completed_jobs_of_perm entries1 entries2 Hp) as [Hkeys Hget].
  rewrite (dict_truthy_same_keys _ _ Hkeys) in Hm1.
  assert (Hdump :
    JsonDump.dumps
      (JObj (fst (fst (merge_caches
                         (loaded_cache json_loads output_dir w2)
                         (completed_jobs_of entries1)))))
    = JsonDump.dumps
        (JObj (fst (fst (merge_caches
                           (loaded_cache json_loads output_dir w2)
                           (completed_jobs_of entries2)))))).
  { rewrite !dumps_object_sorted. f_equal.
    apply sorted_items_same_content.
    - apply merge_caches_wf, loaded_cache_wf.
    - apply merge_caches_wf, loaded_cache_wf.
    - intros k. rewrite !merged_get. now rewrite Hget. }
  rewrite Hdump in Hm1.
  subst result1 result2. unfold run.
  destruct (dict_truthy (loaded_cache json_loads output_dir w2)
            || dict_truthy (completed_jobs_of entries2)).
  - destruct Hm1 as (l1 & ->). destruct Hm2 as (l2 & ->).
    cbn [fst snd files logged set_file]. rewrite Hfiles. auto.
  - destruct Hm1 as (l1 & ->). destruct Hm2 as (l2 & ->).
    cbn [fst snd files logged]. rewrite Hfiles. auto.
Qed.

Lemma run_scan_order_independent_witness :
  files
    (snd (run sample_loads ["migrate_done_to_cache.py"; "out"]
            (sample_world (DirEntries sample_entries)
               (FileText "paths") NoFault)))
    "out/.completion_cache.json"
  = files
      (snd (run sample_loads ["migrate_done_to_cache.py"; "out"]
              (sample_world (DirEntries sample_entries_reordered)
                 (FileText "paths") NoFault)))
      "out/.completion_cache.json".
Proof.
  refine (proj2
    (run_scan_order_independent sample_loads "migrate_done_to_cache.py"
       "out"
       (sample_world (DirEntries sample_entries) (FileText "paths") NoFault)
       (sample_world (DirEntries sample_entries_reordered)
          (FileText "paths") NoFault)
       sample_entries sample_entries_reordered
       eq_refl eq_refl _ eq_refl eq_refl eq_refl) _).
  unfold sample_entries, sample_entries_reordered.
  apply Permutation_sym.
  eapply perm_trans; [apply perm_swap|].
  eapply perm_trans; [apply perm_skip, perm_swap|].
  apply perm_swap.
Defined.

(** A cache whose keys are distinct and hold no separator is its own normal
    form. *)
Lemma normalize_cache_clean {V : Type} (d : pydict V) :
  dict_wf d ->
  (forall k, In k (dict_keys d) -> has_separator k = false) ->
  normalize_cache d = d.
Proof.
  intros Hwf Hclean.
  destruct (rename_key_clean d Hclean) as [Hmap Hkeys].
  rewrite normalize_cache_distinct, Hmap; [reflexivity|]. now rewrite Hkeys.
Qed.

(** X15.  A second run right after a successful one leaves every file as
    the first run left it, provided the names of the scanned jobs hold no
    separator and the decoder reads the dump of the saved cache back as a
    dictionary with the same content. *)
Theorem run_twice_changes_nothing (json_loads : string -> string + json)
  (prog_name output_dir : string) (w : world) (entries : list dir_entry)
  (back : pydict json) :
  dirs w output_dir = DirEntries entries ->
  faults w (cache_path output_dir) = NoFault ->
  (forall e, In e entries -> is_completed_job e = true ->
             has_separator (entry_name e) = false) ->
  let existing := loaded_cache json_loads output_dir w in
  let completed := completed_jobs_of entries in
  let merged := fst (fst (merge_caches existing completed)) in
  json_loads (JsonDump.dumps (JObj merged)) = inr (JObj back) ->
  dict_wf back ->
  (forall k, dict_get k back = dict_get k merged) ->
  let first := run json_loads [prog_name; output_dir] w in
  let second := run json_loads [prog_name; output_dir] (snd first) in
  fst first = 0%Z /\
  fst second = 0%Z /\
  forall q, files (snd second) q = files (snd first) q.
Proof.
  intros Hd Hfault Hnames existing completed merged Hback Hwf Hget
    first second.
  pose proof (main_listing json_loads prog_name output_dir w entries Hd)
    as Hm1.
  cbv zeta in Hm1. fold existing completed merged in Hm1.
  rewrite Hfault in Hm1.
  destruct (dict_truthy existing || dict_truthy completed) eqn:Hne.
  - destruct Hm1 as (lines1 & Hm1).
    set (t := JsonDump.dumps (JObj merged)) in *.
    set (w1 := logged (set_file w (cache_path output_dir) (FileText t))
                 lines1
                 [CallLoad output_dir; CallFind output_dir;
                  CallSave output_dir merged]) in *.
    assert (Hfirst : first = (0%Z, w1)).
    { subst first. unfold run. now rewrite Hm1. }
    subst second. rewrite Hfirst. cbn [fst snd].
    assert (Hd1 : dirs w1 output_dir = DirEntries entries) by exact Hd.
    pose proof (main_listing json_loads prog_name output_dir w1 entries Hd1)
      as Hm2.
    cbv zeta in Hm2.
    assert (Hf1 : faults w1 (cache_path output_dir) = NoFault) by exact Hfault.
    rewrite Hf1 in Hm2.
    assert (Hload : loaded_cache json_loads output_dir w1 = back).
    { assert (Hfile : files w1 (cache_path output_dir) = FileText t).
      { subst w1. cbn [files logged set_file]. now rewrite String.eqb_refl. }
      rewrite (loaded_cache_object _ _ _ _ _ Hfile Hback).
      apply normalize_cache_clean; [exact Hwf|].
      intros k Hk.
      apply (merged_keys_clean json_loads output_dir w entries Hnames).
      fold existing completed merged.
      apply dict_get_keys in Hk as [v Hv]. rewrite Hget in Hv.
      apply dict_get_keys. eauto. }
    rewrite Hload in Hm2. fold completed in Hm2.
    assert (Hdump : JsonDump.dumps
                      (JObj (fst (fst (merge_caches back completed)))) = t).
    { subst t. rewrite !dumps_object_sorted. f_equal.
      apply sorted_items_same_content.
      - now apply merge_caches_wf.
      - apply merge_caches_wf, loaded_cache_wf.
      - intros k. rewrite merged_get, Hget.
        destruct (dict_get k merged) as [v|] eqn:Hk; [reflexivity|].
        subst merged. rewrite merged_get in Hk.
        fold existing in Hk. now destruct (dict_get k existing). }
    rewrite Hdump in Hm2. split; [reflexivity|].
    unfold run.
    destruct (dict_truthy back || dict_truthy completed).
    + destruct Hm2 as (lines2 & ->). split; [reflexivity|].
      intros q. subst w1. cbn [snd files logged set_file].
      now destruct (String.eqb q (cache_path output_dir)).
    + destruct Hm2 as (lines2 & ->). split; [reflexivity|].
      intros q. reflexivity.
  - destruct Hm1 as (lines1 & Hm1).
    set (w1 := logged w lines1 [CallLoad output_dir; CallFind output_dir])
      in *.
    assert (Hfirst : first = (0%Z, w1)).
    { subst first. unfold run. now rewrite Hm1. }
    subst second. rewrite Hfirst. cbn [fst snd].
    assert (Hd1 : dirs w1 output_dir = DirEntries entries) by exact Hd.
    pose proof (main_listing json_loads prog_name output_dir w1 entries Hd1)
      as Hm2.
    cbv zeta in Hm2. subst w1. rewrite loaded_cache_logged in Hm2.
    fold existing completed in Hm2. rewrite Hne in Hm2.
    destruct Hm2 as (lines2 & Hm2). split; [reflexivity|].
    unfold run. rewrite Hm2. split; reflexivity.
Qed.

Lemma run_twice_changes_nothing_witness :
  let first :=
    run roundtrip_loads ["migrate_done_to_cache.py"; "out"]
      (sample_world (DirEntries sample_entries) FileMissing NoFault) in
  let second :=
    run roundtrip_loads ["migrate_done_to_cache.py"; "out"] (snd first) in
  fst second = 0%Z /\
  files (snd second) "out/.completion_cache.json"
  = files (snd first) "out/.completion_cache.json".
Proof.
  intros first second.
  destruct (run_twice_changes_nothing roundtrip_loads
              "migrate_done_to_cache.py" "out"
              (sample_world (DirEntries sample_entries) FileMissing NoFault)
              sample_entries [("jobA", py_True)] eq_refl eq_refl)
    as (_ & H2 & H3).
  - intros e [<-|[<-|[<-|[]]]]; (reflexivity || discriminate).
  - reflexivity.
  - repeat constructor. simpl. tauto.
  - intros k. reflexivity.
  - split; [exact H2 | apply H3].
Defined.

(** X16.  Every scanned job that has a marker file is a key of the cache the
    run saves, under its name as scanned: with the value the loaded cache
    already had for it, and with [True] when the loaded cache had none. *)
Theorem merged_cache_has_every_completed_job
  (json_loads : string -> string + json) (output_dir : string) (w : world)
  (entries : list dir_entry) (e : dir_entry) :
  In e entries ->
  is_completed_job e = true ->
  let existing := loaded_cache json_loads output_dir w in
  let merged :=
    fst (fst (merge_caches existing (completed_jobs_of entries))) in
  dict_get (entry_name e) merged
  = match dict_get (entry_name e) existing with
    | Some v => Some v
    | None => Some py_True
    end.
Proof.
  intros Hin Hc existing merged. subst merged. rewrite merged_get.
  destruct (dict_get (entry_name e) existing); [reflexivity|].
  destruct (completed_jobs_of_spec entries) as (Hk & Hv & _).
  apply Hv, Hk. eauto.
Qed.

Lemma merged_cache_has_every_completed_job_witness :
  dict_get "jobA"
    (fst (fst (merge_caches
                 (loaded_cache sample_loads "out"
                    (sample_world (DirEntries sample_entries)
                       (FileText "paths") NoFault))
                 (completed_jobs_of sample_entries))))
  = Some (JBool false).
Proof.
  exact (merged_cache_has_every_completed_job sample_loads "out"
           (sample_world (DirEntries sample_entries) (FileText "paths")
              NoFault)
           sample_entries
           {| entry_name := "jobA"; entry_is_dir := true;
              entry_done_files := ["out/jobA/x.done.txt"] |}
           (or_introl eq_refl) eq_refl).
Defined.
